(** * node-csv: the indexing and reading engine of [CSVFileParser]

    A shallow embedding of the JavaScript class [CSVFileParser] (with its
    helper class [CSVObjectLine]) and the properties of its two read paths,
    [getLine] (byte-offset index plus positioned read) and [iterator]
    (sequential pass over the line stream).

    Conventions of the embedding.
    - Text is a [string] of 8-bit characters: the files read are single-byte
      (ASCII) text, so the JavaScript [length] of a line is also its number
      of bytes, and decoding a buffer as UTF-8 is the identity.
    - JavaScript [null] and [undefined] are [None]; a thrown exception or a
      rejected promise is [Err].
    - Asynchronous methods are run to completion: one call is one state
      transformer. *)

From Stdlib Require Import ZArith Lia Ascii String.
From stdpp Require Import base option list strings gmap.

Open Scope string_scope.
Open Scope nat_scope.

(** ** Failures *)

(** The engine throws plain [Error] objects that differ by their message:
    the messages on the life cycle are [StateError], the message "line
    index out of range" is [RangeError].  The JavaScript runtime and
    [fs.read] raise errors of their own, which the engine does not catch. *)
Inductive state_fault :=
  | AlreadyOpen       (* "file is already open" *)
  | NotOpen           (* "file is not open" *)
  | NotIndexed.       (* "file is not indexed" *)

Inductive error :=
  | StateError (why : state_fault)
  | RangeError        (* "line index out of range. Expected an index between 1 and <lines>" *)
  | TypeError         (* raised by the runtime: a property of undefined/null is read *)
  | FsOutOfRange      (* fs.read: ERR_OUT_OF_RANGE, [length] exceeds the buffer *)
  | FsEmptyBuffer     (* fs.read: ERR_INVALID_ARG_VALUE, the buffer is empty *)
  | FsBadDescriptor.  (* fs.read: ERR_INVALID_ARG_TYPE, the descriptor is null *)

Inductive Result (A : Type) :=
  | Ok (a : A)
  | Err (e : error).
Arguments Ok {A} a.
Arguments Err {A} e.

#[global] Instance Result_ret : MRet Result := fun A a => Ok a.

#[global] Instance Result_bind : MBind Result := fun A B k r =>
  match r with
  | Ok a => k a
  | Err e => Err e
  end.

(** ** Row records *)

(** A cell after [cells[i] || null]: [None] is [null]. *)
Abbreviation cell := (option string).

(** A value stored under a column name: one cell, or an array of cells. *)
Inductive field :=
  | FCell (c : cell)
  | FSeq (l : list cell).

(** The object held in [fields].  [own] are its own properties.  Its
    prototype is [Object.prototype] until an assignment to the accessor
    [__proto__] replaces it by [null] ([proto_null]); all properties it
    inherits are functions or objects, never strings or arrays. *)
Record jsobj := {
  proto_null : bool;
  own : gmap string field
}.

(** class CSVObjectLine *)
Record CSVObjectLine := {
  index : Z;
  line : option string;
  cells : list string;
  hasMissingCells : bool;
  hasExcessCells : bool;
  fields : jsobj
}.

(** [constructor({ index = 0, line = null, cells = [] } = {})] *)
Definition new_CSVObjectLine (index : Z) (line : option string)
    (cells : list string) : CSVObjectLine :=
  {| index := index;
     line := line;
     cells := cells;
     hasMissingCells := false;
     hasExcessCells := false;
     fields := {| proto_null := false; own := {[ "_unnamed" := FSeq [] ]} |} |}.

Definition set_hasExcessCells (b : bool) (r : CSVObjectLine) : CSVObjectLine :=
  {| index := index r; line := line r; cells := cells r;
     hasMissingCells := hasMissingCells r;
     hasExcessCells := b;
     fields := fields r |}.

Definition set_fields (o : jsobj) (r : CSVObjectLine) : CSVObjectLine :=
  {| index := index r; line := line r; cells := cells r;
     hasMissingCells := hasMissingCells r;
     hasExcessCells := hasExcessCells r;
     fields := o |}.

(** ** Row splitter *)

(** [String.prototype.split] on a one-character separator: always at least
    one token; adjacent separators give empty tokens. *)
Fixpoint split_on (d : ascii) (s : string) : list string :=
  match s with
  | EmptyString => [""]
  | String c r =>
      if Ascii.eqb c d then "" :: split_on d r
      else match split_on d r with
           | t :: ts => String c t :: ts
           | [] => [String c ""]
           end
  end.

(** [#splitCSVLine(line)]: [line.split(',')] *)
Definition splitCSVLine (line : string) : list string :=
  split_on "," line.

(** ** Property access on [fields] *)

(** [o[k] = v] for a value that is a cell.  An own property is overwritten
    or created, except under the name [__proto__] while the prototype is
    still [Object.prototype]: the inherited setter then ignores a string
    and, given [null], removes the prototype. *)
Definition obj_set_cell (o : jsobj) (k : string) (c : cell) : jsobj :=
  match own o !! k with
  | Some _ => {| proto_null := proto_null o; own := <[k := FCell c]> (own o) |}
  | None =>
      if bool_decide (k = "__proto__") && negb (proto_null o) then
        match c with
        | None => {| proto_null := true; own := own o |}
        | Some _ => o
        end
      else {| proto_null := proto_null o; own := <[k := FCell c]> (own o) |}
  end.

(** Replaces the own property [k], which exists. *)
Definition obj_put (o : jsobj) (k : string) (v : field) : jsobj :=
  {| proto_null := proto_null o; own := <[k := v]> (own o) |}.

(** The three-way assignment found in both loops of [#buildLineObject]:
<<
    if (typeof result.fields[col] === 'string') {
        result.fields[col] = [result.fields[col], cell]; continue; }
    if (Array.isArray(result.fields[col])) {
        result.fields[col].push(cell); continue; }
    result.fields[col] = cell;
>> *)
Definition assign_field (o : jsobj) (col : string) (c : cell) : jsobj :=
  match own o !! col with
  | Some (FCell (Some s)) => obj_put o col (FSeq [Some s; c])
  | Some (FSeq l) => obj_put o col (FSeq (l ++ [c]))
  | _ => obj_set_cell o col c
  end.

(** [result.fields._unnamed.push(cell)] *)
Definition push_unnamed (o : jsobj) (c : cell) : Result jsobj :=
  match own o !! "_unnamed" with
  | Some (FSeq l) => Ok (obj_put o "_unnamed" (FSeq (l ++ [c])))
  | _ => Err TypeError
  end.

(** [cells[i] || null] *)
Definition cell_at (cells : list string) (i : nat) : cell :=
  match cells !! i with
  | Some s => if bool_decide (s = "") then None else Some s
  | None => None
  end.

(** One turn of the loop taken when [cells.length > _header.length]. *)
Definition excess_step (hdr cells : list string) (o : jsobj) (i : nat)
    : Result jsobj :=
  let c := cell_at cells i in
  match hdr !! i with
  | None => push_unnamed o c
  | Some col =>
      if bool_decide (col = "") then push_unnamed o c
      else Ok (assign_field o col c)
  end.

(** One turn of the loop taken otherwise.  There [i < _header.length], so
    [_header[i]] is a string; were it [undefined], the property key would
    be its conversion to a string. *)
Definition plain_step (hdr cells : list string) (o : jsobj) (i : nat)
    : Result jsobj :=
  Ok (assign_field o (default "undefined" (hdr !! i)) (cell_at cells i)).

(** [for (let i = 0; i < n; i++) body], as a fold over [0 .. n-1]. *)
Fixpoint for_each {State : Type} (body : State -> nat -> Result State)
    (ixs : list nat) (s : State) : Result State :=
  match ixs with
  | [] => Ok s
  | i :: rest => s' ← body s i; for_each body rest s'
  end.

(** ** Engine state *)

(** The interface made by [readline.createInterface] over a read stream of
    the file: the lines it has still to deliver, and whether it was closed.
    Its lines go in order to whoever iterates over it, none being emitted
    before the iteration starts.  The engine and the generator of
    [iterator] may hold the same interface, so interfaces live in a store
    and are named by their position in it. *)
Record Readline := {
  rl_lines : list string;
  rl_closed : bool
}.

(** The [header] handed to [#buildLineObject]: [null], a raw header line,
    or the array of column names. *)
Inductive header_arg :=
  | HNull
  | HStr (s : string)
  | HArr (l : list string).

(** The generator object made by [iterator()]: the captured
    [scopeIteratorStream], its locals [index] and [header], and whether it
    has completed. *)
Record Generator := {
  g_stream : option nat;
  g_index : nat;
  g_header : header_arg;
  g_done : bool
}.

(** The private fields of [CSVFileParser].  [#input_stream] and
    [#iterator_stream] are created and released together and are one entry
    of the store; [#iterator_function] is the code of the generator and has
    no state. *)
Record Engine := {
  filename : string;
  index_pool : list (nat * nat);
  header : option (list string);
  lines : nat;
  columns : nat;
  size : nat;
  iterator_stream : option nat;
  reading_handle : option positive;
  iterator_object : option Generator;
  is_open : bool;
  is_indexed : bool;
  is_iterator_active : bool;
  reading_buffer : option string;
  line_divisor : string
}.

(** A running program: the engine and the store of interfaces it made. *)
Record Machine := {
  eng : Engine;
  streams : list Readline
}.

(** The file named by [filename], which exists and does not change, and the
    descriptor [fs.openSync] returns for it (descriptors 0 to 2 are the
    standard streams, so it is positive). *)
Record World := {
  file_bytes : string;
  fresh_fd : positive
}.

(** ** Row decoder *)

(** [this.#name] needs a receiver: with [this] undefined it raises. *)
Definition receiver (this : option Engine) : Result Engine :=
  match this with
  | Some e => Ok e
  | None => Err TypeError
  end.

(** [#buildLineObject(line, index, { header = null } = {})] *)
Definition buildLineObject (this : option Engine) (line : string) (index : Z)
    (opt_header : header_arg) : Result CSVObjectLine :=
  (* if (typeof header === 'string') header = this.#splitCSVLine(header); *)
  header' ← match opt_header with
            | HStr s => _ ← receiver this; Ok (Some (splitCSVLine s))
            | HArr l => Ok (Some l)
            | HNull => Ok None
            end;
  (* const _header = header || this.#header; *)
  _header ← match header' with
            | Some l => Ok (Some l)
            | None => e ← receiver this; Ok (header e)
            end;
  (* const cells = this.#splitCSVLine(line); *)
  _ ← receiver this;
  let cells := splitCSVLine line in
  let result := new_CSVObjectLine index (Some line) cells in
  match _header with
  | None => Err TypeError                        (* _header.length of null *)
  | Some hdr =>
      if bool_decide (length hdr < length cells) then
        let result := set_hasExcessCells true result in
        o ← for_each (excess_step hdr cells) (seq 0 (length cells)) (fields result);
        Ok (set_fields o result)
      else
        o ← for_each (plain_step hdr cells) (seq 0 (length hdr)) (fields result);
        Ok (set_fields o result)
  end.

(** ** The platform: line reader, buffers, positioned read *)

Definition LF : ascii := "010"%char.
Definition CR : ascii := "013"%char.
Definition NUL : ascii := "000"%char.

(** The text between line ends, the unterminated tail included.  The line
    reader takes a line feed, a carriage return followed by a line feed
    ([crlfDelay: Infinity]), and a lone carriage return as line ends. *)
Fixpoint segments (s : string) : list string :=
  match s with
  | EmptyString => [""]
  | String c r =>
      if Ascii.eqb c LF then "" :: segments r
      else if Ascii.eqb c CR then
        match r with
        | String c' r' =>
            if Ascii.eqb c' LF then "" :: segments r' else "" :: segments r
        | EmptyString => "" :: segments r
        end
      else match segments r with
           | t :: ts => String c t :: ts
           | [] => [String c ""]
           end
  end.

(** The lines the reader emits: an empty tail after the last line end is
    not a line. *)
Definition readline_lines (s : string) : list string :=
  let segs := segments s in
  match last segs with
  | Some "" => removelast segs
  | _ => segs
  end.

(** [s.includes('\r\n')] *)
Fixpoint includes_crlf (s : string) : bool :=
  match s with
  | EmptyString => false
  | String c r =>
      match r with
      | String c' _ => (Ascii.eqb c CR && Ascii.eqb c' LF) || includes_crlf r
      | EmptyString => false
      end
  end.

(** White space removed by [String.prototype.trim], among 8-bit
    characters: tab, line feed, vertical tab, form feed, carriage return,
    space. *)
Definition is_space (c : ascii) : bool :=
  let n := nat_of_ascii c in
  ((9 <=? n) && (n <=? 13)) || (n =? 32).

Fixpoint trim_start (s : string) : string :=
  match s with
  | EmptyString => ""
  | String c r => if is_space c then trim_start r else s
  end.

Fixpoint trim_end (s : string) : string :=
  match s with
  | EmptyString => ""
  | String c r =>
      match trim_end r with
      | EmptyString => if is_space c then "" else String c ""
      | r' => String c r'
      end
  end.

Definition trim (s : string) : string := trim_end (trim_start s).

(** [Buffer.alloc(n)]: [n] zero bytes. *)
Fixpoint Buffer_alloc (n : nat) : string :=
  match n with
  | O => ""
  | S n' => String NUL (Buffer_alloc n')
  end.

(** [fs.read(fd, buffer, 0, length, position, callback)]: the arguments are
    validated, then up to [length] bytes of the file from [position] on are
    copied to the front of [buffer]; bytes past those read keep their
    value.  Gives the number of bytes read and the buffer. *)
Definition fs_read (w : World) (fd : option positive) (buffer : string)
    (length position : nat) : Result (nat * string) :=
  match fd with
  | None => Err FsBadDescriptor
  | Some _ =>
      if length =? 0 then Ok (0, buffer)
      else if String.length buffer =? 0 then Err FsEmptyBuffer
      else if String.length buffer <? length then Err FsOutOfRange
      else
        let bytes := substring position length (file_bytes w) in
        let n := String.length bytes in
        Ok (n, String.append bytes (substring n (String.length buffer - n) buffer))
  end.

(** ** The methods of [CSVFileParser] *)

(** Field updates, named after the fields they write. *)
Definition set_session (strm : option nat) (fd : option positive) (opn : bool)
    (div : string) (e : Engine) : Engine :=
  {| filename := filename e; index_pool := index_pool e; header := header e;
     lines := lines e; columns := columns e; size := size e;
     iterator_stream := strm; reading_handle := fd;
     iterator_object := iterator_object e;
     is_open := opn; is_indexed := is_indexed e;
     is_iterator_active := is_iterator_active e;
     reading_buffer := reading_buffer e; line_divisor := div |}.

Definition set_counters (l s : nat) (e : Engine) : Engine :=
  {| filename := filename e; index_pool := index_pool e; header := header e;
     lines := l; columns := columns e; size := s;
     iterator_stream := iterator_stream e; reading_handle := reading_handle e;
     iterator_object := iterator_object e;
     is_open := is_open e; is_indexed := is_indexed e;
     is_iterator_active := is_iterator_active e;
     reading_buffer := reading_buffer e; line_divisor := line_divisor e |}.

Definition set_header (h : list string) (e : Engine) : Engine :=
  {| filename := filename e; index_pool := index_pool e; header := Some h;
     lines := lines e; columns := length h; size := size e;
     iterator_stream := iterator_stream e; reading_handle := reading_handle e;
     iterator_object := iterator_object e;
     is_open := is_open e; is_indexed := is_indexed e;
     is_iterator_active := is_iterator_active e;
     reading_buffer := reading_buffer e; line_divisor := line_divisor e |}.

Definition set_index_pool (p : list (nat * nat)) (e : Engine) : Engine :=
  {| filename := filename e; index_pool := p; header := header e;
     lines := lines e; columns := columns e; size := size e;
     iterator_stream := iterator_stream e; reading_handle := reading_handle e;
     iterator_object := iterator_object e;
     is_open := is_open e; is_indexed := is_indexed e;
     is_iterator_active := is_iterator_active e;
     reading_buffer := reading_buffer e; line_divisor := line_divisor e |}.

Definition set_reading_buffer (b : option string) (e : Engine) : Engine :=
  {| filename := filename e; index_pool := index_pool e; header := header e;
     lines := lines e; columns := columns e; size := size e;
     iterator_stream := iterator_stream e; reading_handle := reading_handle e;
     iterator_object := iterator_object e;
     is_open := is_open e; is_indexed := is_indexed e;
     is_iterator_active := is_iterator_active e;
     reading_buffer := b; line_divisor := line_divisor e |}.

Definition set_is_indexed (b : bool) (e : Engine) : Engine :=
  {| filename := filename e; index_pool := index_pool e; header := header e;
     lines := lines e; columns := columns e; size := size e;
     iterator_stream := iterator_stream e; reading_handle := reading_handle e;
     iterator_object := iterator_object e;
     is_open := is_open e; is_indexed := b;
     is_iterator_active := is_iterator_active e;
     reading_buffer := reading_buffer e; line_divisor := line_divisor e |}.

Definition set_iterator (g : option Generator) (active : bool) (e : Engine)
    : Engine :=
  {| filename := filename e; index_pool := index_pool e; header := header e;
     lines := lines e; columns := columns e; size := size e;
     iterator_stream := iterator_stream e; reading_handle := reading_handle e;
     iterator_object := g;
     is_open := is_open e; is_indexed := is_indexed e;
     is_iterator_active := active;
     reading_buffer := reading_buffer e; line_divisor := line_divisor e |}.

(** The state the constructor leaves before [if (Boolean(open)) this.open()]. *)
Definition new_Engine (filename : string) : Engine :=
  {| filename := filename; index_pool := []; header := None;
     lines := 0; columns := 0; size := 0;
     iterator_stream := None; reading_handle := None;
     iterator_object := None;
     is_open := false; is_indexed := false; is_iterator_active := false;
     reading_buffer := None;
     line_divisor := String LF "" |}.

(** The divisor [open()] reads off the first 8 KiB of the file. *)
Definition sniff_divisor (w : World) : string :=
  if includes_crlf (substring 0 (1024 * 8) (file_bytes w))
  then String CR (String LF "")
  else String LF "".

(** [open()] *)
Definition open (w : World) (m : Machine) : Result Machine :=
  let e := eng m in
  if is_open e then Err (StateError AlreadyOpen)
  else
    let rl := {| rl_lines := readline_lines (file_bytes w); rl_closed := false |} in
    let fd := match reading_handle e with
              | Some fd => Some fd
              | None => Some (fresh_fd w)
              end in
    (* if (!this.#line_divisor) { ... } *)
    let div := if bool_decide (line_divisor e = "") then sniff_divisor w
               else line_divisor e in
    Ok {| eng := set_session (Some (length (streams m))) fd true div e;
          streams := streams m ++ [rl] |}.

Definition close_rl (rl : Readline) : Readline :=
  {| rl_lines := rl_lines rl; rl_closed := true |}.

(** [close({ preserveFileHandle = false } = {})] *)
Definition close (preserveFileHandle : bool) (m : Machine) : Result Machine :=
  let e := eng m in
  if negb (is_open e) then Err (StateError NotOpen)
  else
    match iterator_stream e with
    | None => Err TypeError                      (* null.close() *)
    | Some id =>
        let fd := if preserveFileHandle then reading_handle e else None in
        Ok {| eng := set_session None fd false (line_divisor e) e;
              streams := alter close_rl id (streams m) |}
    end.

(** [rewind()] *)
Definition rewind (w : World) (m : Machine) : Result Machine :=
  if negb (is_open (eng m)) then Err (StateError NotOpen)
  else m' ← close true m; open w m'.

(** [new CSVFileParser(filename, { open })] *)
Definition new_CSVFileParser (w : World) (filename : string) (opn : bool)
    : Result Machine :=
  let m := {| eng := new_Engine filename; streams := [] |} in
  if opn then open w m else Ok m.

(** The lines an interface still delivers. *)
Definition pending (strs : list Readline) (id : nat) : list string :=
  match strs !! id with
  | Some rl => if rl_closed rl then [] else rl_lines rl
  | None => []
  end.

(** The body of the scan loop of [buildIndex], over the lines the stream
    delivers; the second component is the local [maxLength].
    [String.length line] is [line.length], the length of the decoded line;
    it is the number of bytes of the line when the file is single-byte
    text. *)
Fixpoint scan (max : Z) (ls : list string) (s : Engine * nat) : Engine * nat :=
  match ls with
  | [] => s
  | line :: rest =>
      let '(e, maxLength) := s in
      let len := String.length line + String.length (line_divisor e) in
      if lines e =? 0 then
        scan max rest
          (set_header (splitCSVLine line)
             (set_counters (lines e + 1) (size e + len) e), maxLength)
      else if (0 <=? max)%Z && (max <=? Z.of_nat (lines e))%Z then s   (* break *)
      else
        let e1 := set_index_pool (index_pool e ++ [(size e, len)]) e in
        let e2 := set_counters (lines e1 + 1) (size e1 + len) e1 in
        scan max rest
          (e2, if maxLength <=? String.length line then String.length line
               else maxLength)
  end.

(** [buildIndex({ max = -1 } = {})]; the progress bar only writes to the
    console and is left out. *)
Definition buildIndex (w : World) (max : Z) (m : Machine) : Result Machine :=
  let e := eng m in
  if negb (is_open e) then Err (StateError NotOpen)
  else
    match iterator_stream e with
    | None => Err TypeError                      (* for await over null *)
    | Some id =>
        let '(e1, maxLength) :=
          scan max (pending (streams m) id) (set_counters 0 0 e, 0) in
        let e2 := set_reading_buffer (Some (Buffer_alloc maxLength)) e1 in
        (* leaving the loop ends the interface *)
        let strs := alter (fun _ => {| rl_lines := []; rl_closed := true |}) id
                      (streams m) in
        m1 ← close true {| eng := e2; streams := strs |};
        m2 ← open w m1;
        Ok {| eng := set_is_indexed true (eng m2); streams := streams m2 |}
    end.

(** The values [getLine] can be called with. *)
Inductive jsvalue :=
  | VInt (z : Z)          (* a number with an integer value *)
  | VFrac (fl : Z)        (* a number strictly between [fl] and [fl + 1] *)
  | VInf (positive : bool)
  | VNaN
  | VOther.               (* not a number: undefined, null, a string, an object *)

(** [#readAtIndex(index, length)]: the text read, and the shared buffer
    after the read.  [toString('utf-8')] is the identity and [trim] removes
    the white space of [is_space]: so it is for bytes below 128. *)
Definition readAtIndex (w : World) (e : Engine) (position length : nat)
    : Result (string * Engine) :=
  (* const buffer = this.#reading_buffer || Buffer.alloc(length); *)
  let buffer := default (Buffer_alloc length) (reading_buffer e) in
  '(_, buffer') ← fs_read w (reading_handle e) buffer length position;
  let text := trim (substring 0 length buffer') in
  Ok (text, match reading_buffer e with
            | Some _ => set_reading_buffer (Some buffer') e
            | None => e
            end).

(** The guard of [getLine] on its argument:
<<
    !index || typeof index !== 'number' || index > this.#lines ||
    index <= 0 || !this.#index_pool[index][1]
>>
    It gives the Index Table entry when the guard is false, [RangeError]
    when it is true, and [TypeError] when reading [[1]] of a missing entry
    raises. *)
Definition lookup_entry (e : Engine) (v : jsvalue) : Result (nat * nat) :=
  match v with
  | VOther => Err RangeError
  | VNaN => Err RangeError
  | VInf _ => Err RangeError
  | VFrac fl =>
      if (Z.of_nat (lines e) <=? fl)%Z || (fl <? 0)%Z then Err RangeError
      else Err TypeError
  | VInt z =>
      if (z =? 0)%Z || (Z.of_nat (lines e) <? z)%Z || (z <=? 0)%Z
      then Err RangeError
      else match index_pool e !! Z.to_nat z with
           | None => Err TypeError
           | Some (off, len) =>
               if len =? 0 then Err RangeError else Ok (off, len)
           end
  end.

(** The number [getLine] stores as [index] of the record. *)
Definition number_of (v : jsvalue) : Z :=
  match v with
  | VInt z => z
  | _ => 0%Z
  end.

(** [getLine(index)]: the record or the failure, and the engine after the
    call. *)
Definition getLine (w : World) (v : jsvalue) (m : Machine)
    : Result CSVObjectLine * Machine :=
  let e := eng m in
  if negb (is_open e) then (Err (StateError NotOpen), m)
  else if negb (is_indexed e) || (length (index_pool e) =? 0)
  then (Err (StateError NotIndexed), m)
  else
    match lookup_entry e v with
    | Err err => (Err err, m)
    | Ok (off, len) =>
        match readAtIndex w e off len with
        | Err err => (Err err, m)
        | Ok (text, e') =>
            (buildLineObject (Some e') text (number_of v) HNull,
             {| eng := e'; streams := streams m |})
        end
    end.

(** [iterator()]: the generator is made once; later calls return it. *)
Definition iterator (m : Machine) : Result Machine :=
  let e := eng m in
  if negb (is_open e) then Err (StateError NotOpen)
  else if is_iterator_active e then Ok m
  else
    let g := {| g_stream := iterator_stream e;
                g_index := 0;
                (* let header = scopeHeader || null; *)
                g_header := match header e with
                            | Some h => HArr h
                            | None => HNull
                            end;
                g_done := false |} in
    Ok {| eng := set_iterator (Some g) true e; streams := streams m |}.

(** What one [next()] of the generator settles to. *)
Inductive step_result :=
  | Yield (r : CSVObjectLine)
  | Done
  | Throw (e : error).

(** [!header] for the local [header] of the generator *)
Definition header_falsy (h : header_arg) : bool :=
  match h with
  | HNull => true
  | HStr s => bool_decide (s = "")
  | HArr _ => false
  end.

(** The loop of the generator up to its next [yield], its end or its
    failure:
<<
    for await (const line of scopeIteratorStream) {
        index++;
        if (index === 1) { if (!header) header = line; continue; }
        yield scopeLineObjectBuilder(line, index, { header });
    }
>>
    [scopeLineObjectBuilder] is [this.#buildLineObject] stored in a
    constant and called as a plain function, so inside the decoder [this]
    is undefined (class bodies are strict code). *)
Fixpoint gen_advance (ls : list string) (index : nat) (hdr : header_arg)
    : step_result * list string * nat * header_arg :=
  match ls with
  | [] => (Done, [], index, hdr)
  | line :: rest =>
      let index := index + 1 in
      if index =? 1 then
        gen_advance rest index (if header_falsy hdr then HStr line else hdr)
      else
        match buildLineObject None line (Z.of_nat index) hdr with
        | Ok r => (Yield r, rest, index, hdr)
        | Err e => (Throw e, rest, index, hdr)
        end
  end.

(** One [next()] on the generator held in [#iterator_object]. *)
Definition gen_next (m : Machine) : step_result * Machine :=
  match iterator_object (eng m) with
  | None => (Throw TypeError, m)
  | Some g =>
      if g_done g then (Done, m)
      else
        match g_stream g with
        | None => (Throw TypeError, m)             (* for await over null *)
        | Some id =>
            let '(res, rest, idx, hdr) :=
              gen_advance (pending (streams m) id) (g_index g) (g_header g) in
            let finished := match res with Yield _ => false | _ => true end in
            let g' := {| g_stream := g_stream g; g_index := idx;
                         g_header := hdr; g_done := finished |} in
            let rl' := fun rl => {| rl_lines := rest;
                                    rl_closed := rl_closed rl || finished |} in
            (res, {| eng := set_iterator (Some g') (is_iterator_active (eng m))
                              (eng m);
                     streams := alter rl' id (streams m) |})
        end
  end.

(** How a pass over the generator ends. *)
Inductive pass_end :=
  | Finished
  | Failed (e : error)
  | Unfinished.

(** [for await (let line of iterator)]: the records received in at most
    [fuel] calls of [next()], and how the pass ended. *)
Fixpoint iterator_pass (fuel : nat) (m : Machine)
    : list CSVObjectLine * pass_end * Machine :=
  match fuel with
  | O => ([], Unfinished, m)
  | S fuel' =>
      match gen_next m with
      | (Yield r, m') =>
          let '(rs, fin, m'') := iterator_pass fuel' m' in (r :: rs, fin, m'')
      | (Done, m') => ([], Finished, m')
      | (Throw e, m') => ([], Failed e, m')
      end
  end.

(** ** Usage, as in the class documentation *)

(** [new CSVFileParser(file, { open: true })] then [await csv.buildIndex({ max })]. *)
Definition indexed (w : World) (max : Z) : Result Machine :=
  m ← new_CSVFileParser w "data.csv" true;
  buildIndex w max m.

(** ... then [await csv.getLine(v)]. *)
Definition getLine_indexed (w : World) (max : Z) (v : jsvalue)
    : Result CSVObjectLine :=
  m ← indexed w max;
  (getLine w v m).1.

(** ... or one pass [for await (let line of csv.iterator())]. *)
Definition pass_indexed (w : World) (max : Z) (fuel : nat)
    : Result (list CSVObjectLine * pass_end) :=
  m ← indexed w max;
  m' ← iterator m;
  Ok (iterator_pass fuel m').1.

(** The same pass on an engine that was opened and not indexed. *)
Definition pass_unindexed (w : World) (fuel : nat)
    : Result (list CSVObjectLine * pass_end) :=
  m ← new_CSVFileParser w "data.csv" true;
  m' ← iterator m;
  Ok (iterator_pass fuel m').1.

(** The invariant of the engine between calls: while it is open it holds a
    descriptor and an interface of the store. *)
Definition well_formed (m : Machine) : bool :=
  if is_open (eng m)
  then bool_decide (is_Some (reading_handle (eng m)))
       && match iterator_stream (eng m) with
          | Some id => bool_decide (id < length (streams m))
          | None => false
          end
  else true.

(** ** Sample files *)

(** A file whose lines all end in [div]. *)
Definition text_file (div : string) (ls : list string) : string :=
  foldr (fun l acc => String.append l (String.append div acc)) "" ls.

(** Header [a,b] and the rows [1,2], [3,4,5], [6], ended by a line feed. *)
Definition sample_lf : World :=
  {| file_bytes := text_file (String LF "") ["a,b"; "1,2"; "3,4,5"; "6"];
     fresh_fd := 3%positive |}.

(** The same lines, ended by carriage return and line feed. *)
Definition sample_crlf : World :=
  {| file_bytes := text_file (String CR (String LF ""))
                     ["a,b"; "1,2"; "3,4,5"; "6"];
     fresh_fd := 3%positive |}.

(** The engine after [buildIndex()] on the first sample. *)
Definition indexed_sample : Machine :=
  match indexed sample_lf (-1) with
  | Ok m => m
  | Err _ => {| eng := new_Engine "data.csv"; streams := [] |}
  end.

(** A record, from its parts. *)
Definition record (i : Z) (l : string) (cs : list string) (excess : bool)
    (fs : list (string * field)) : CSVObjectLine :=
  {| index := i; line := Some l; cells := cs;
     hasMissingCells := false; hasExcessCells := excess;
     fields := {| proto_null := false; own := list_to_map fs |} |}.

(** An engine that knows the header [hdr], for calls of the decoder. *)
Definition engine_with_header (hdr : list string) : Engine :=
  set_header hdr (new_Engine "data.csv").

(** ** Notions used in the statements *)

(** The content of the unnamed bucket, when [fields._unnamed] is an array. *)
Definition unnamed (o : jsobj) : option (list cell) :=
  match own o !! "_unnamed" with
  | Some (FSeq l) => Some l
  | _ => None
  end.

Definition has_key (o : jsobj) (k : string) : Prop := is_Some (own o !! k).

(** The header the decoder works with, when called on the engine [e]. *)
Definition effective_header (e : Engine) (h : header_arg) : option (list string) :=
  match h with
  | HNull => header e
  | HStr s => Some (splitCSVLine s)
  | HArr hdr => Some hdr
  end.

(** The fields [getLine] reads. *)
Definition same_index (e1 e2 : Engine) : Prop :=
  is_open e1 = is_open e2 /\ is_indexed e1 = is_indexed e2 /\
  index_pool e1 = index_pool e2 /\ lines e1 = lines e2 /\
  header e1 = header e2 /\ reading_buffer e1 = reading_buffer e2 /\
  reading_handle e1 = reading_handle e2.

(** Entries that tile the bytes from [from] to [to]: each starts where the
    one before ends, and none is empty. *)
Fixpoint tiled (from : nat) (p : list (nat * nat)) (to : nat) : Prop :=
  match p with
  | [] => from = to
  | (off, len) :: p' => off = from /\ 0 < len /\ tiled (from + len) p' to
  end.

(** The bytes the scan counts for the lines [ls]: each with a divisor of
    [d] bytes. *)
Definition counted_bytes (d : nat) (ls : list string) : nat :=
  sum_list (map (fun l => String.length l + d) ls).

(** What the scan keeps true of the engine. *)
Definition scan_inv (e : Engine) : Prop :=
  line_divisor e <> "" /\
  match lines e with
  | 0 => index_pool e = []
  | S n =>
      length (index_pool e) = n /\
      exists start, tiled start (index_pool e) (size e)
  end.

(** The states a program reaches by calling the public methods, and
    [next()] on the generator, on an engine it made. *)
Inductive reachable (w : World) : Machine -> Prop :=
  | reach_new fname opn m :
      new_CSVFileParser w fname opn = Ok m -> reachable w m
  | reach_open m m' :
      reachable w m -> open w m = Ok m' -> reachable w m'
  | reach_close p m m' :
      reachable w m -> close p m = Ok m' -> reachable w m'
  | reach_rewind m m' :
      reachable w m -> rewind w m = Ok m' -> reachable w m'
  | reach_buildIndex max m m' :
      reachable w m -> buildIndex w max m = Ok m' -> reachable w m'
  | reach_getLine v m :
      reachable w m -> reachable w (getLine w v m).2
  | reach_iterator m m' :
      reachable w m -> iterator m = Ok m' -> reachable w m'
  | reach_next m :
      reachable w m -> reachable w (gen_next m).2.

(** ** The accessors *)

(** [get filename()], [get isOpen()], [get isIndexed()] *)
Definition get_filename (m : Machine) : string := filename (eng m).
Definition get_isOpen (m : Machine) : bool := is_open (eng m).
Definition get_isIndexed (m : Machine) : bool := is_indexed (eng m).

(** [get header()], [get lines()], [get columns()], [get size()]: each
    starts with [if (!this.isIndexed) this.#throwMissingIndexingError(...)],
    whose message ends in "file is not indexed". *)
Definition get_header (m : Machine) : Result (option (list string)) :=
  if negb (get_isIndexed m) then Err (StateError NotIndexed)
  else Ok (header (eng m)).

Definition get_lines (m : Machine) : Result nat :=
  if negb (get_isIndexed m) then Err (StateError NotIndexed)
  else Ok (lines (eng m)).

Definition get_columns (m : Machine) : Result nat :=
  if negb (get_isIndexed m) then Err (StateError NotIndexed)
  else Ok (columns (eng m)).

Definition get_size (m : Machine) : Result nat :=
  if negb (get_isIndexed m) then Err (StateError NotIndexed)
  else Ok (size (eng m)).

(** ** Further samples *)

(** An engine made without [open: true], and the same after [open()] on
    the first sample. *)
Definition unopened_sample : Machine :=
  {| eng := new_Engine "data.csv"; streams := [] |}.

Definition opened_sample : Machine :=
  match open sample_lf unopened_sample with
  | Ok m => m
  | Err _ => unopened_sample
  end.

(** A file without a byte, and one with a header line only. *)
Definition empty_file : World :=
  {| file_bytes := ""; fresh_fd := 3%positive |}.

Definition header_only_file : World :=
  {| file_bytes := text_file (String LF "") ["a,b"]; fresh_fd := 3%positive |}.

(** ** Further notions used in the statements *)

(** One call of a method that returns, or one [next()] on the generator;
    a call that throws before it writes leaves the engine as it is. *)
Inductive call (w : World) : Machine -> Machine -> Prop :=
  | call_open m m' : open w m = Ok m' -> call w m m'
  | call_close p m m' : close p m = Ok m' -> call w m m'
  | call_rewind m m' : rewind w m = Ok m' -> call w m m'
  | call_buildIndex max m m' : buildIndex w max m = Ok m' -> call w m m'
  | call_getLine v m : call w m (getLine w v m).2
  | call_iterator m m' : iterator m = Ok m' -> call w m m'
  | call_next m : call w m (gen_next m).2.

(** Any number of calls, one after the other. *)
Definition calls (w : World) : Machine -> Machine -> Prop := rtc (call w).

(** What no call undoes: the file name, the two flags once set, and the
    entries already in the Index Table. *)
Definition never_undone (e e' : Engine) : Prop :=
  filename e' = filename e /\
  (is_indexed e = true -> is_indexed e' = true) /\
  (is_iterator_active e = true -> is_iterator_active e' = true) /\
  index_pool e `prefix_of` index_pool e'.

(** What holds of the engine in every state a program reaches. *)
Definition engine_inv (e : Engine) : Prop :=
  line_divisor e = String LF "" /\
  columns e = from_option length 0 (header e) /\
  Forall (fun entry => 0 < entry.2) (index_pool e) /\
  (is_indexed e = false ->
     index_pool e = [] /\ header e = None /\ lines e = 0 /\ size e = 0 /\
     reading_buffer e = None) /\
  (is_indexed e = true -> is_Some (reading_buffer e)) /\
  (is_iterator_active e = true <-> is_Some (iterator_object e)).

(** [cells.join(d)], the inverse of the splitter. *)
Fixpoint join_on (d : ascii) (cs : list string) : string :=
  match cs with
  | [] => ""
  | c :: rest =>
      match rest with
      | [] => c
      | _ :: _ => String.append c (String d (join_on d rest))
      end
  end.

(** Whether the character [d] occurs in [s]. *)
Fixpoint occurs (d : ascii) (s : string) : bool :=
  match s with
  | EmptyString => false
  | String c r => Ascii.eqb c d || occurs d r
  end.

(** The cells the loops assign to the name [col]: those at the positions,
    in order, where the header has that name. *)
Definition assigned (hdr cells : list string) (col : string) : list cell :=
  omap (fun j => if bool_decide (hdr !! j = Some col)
                 then Some (cell_at cells j) else None)
       (seq 0 (length hdr)).

(** A list of cells without its leading [null]s. *)
Fixpoint drop_nulls (cs : list cell) : list cell :=
  match cs with
  | None :: rest => drop_nulls rest
  | _ => cs
  end.

(** What a name holds after the cells [cs] were assigned to it, one after
    the other: nothing when there was none; otherwise [null], one string,
    or the array of the cells from the first string on. *)
Definition settled (cs : list cell) : option field :=
  match cs with
  | [] => None
  | _ :: _ =>
      Some (match drop_nulls cs with
            | [] => FCell None
            | [c] => FCell c
            | xs => FSeq xs
            end)
  end.

(** A header whose names are all ordinary: none is empty, and none is
    [_unnamed] or [__proto__]. *)
Definition ordinary (hdr : list string) : Prop :=
  ("" ∉ hdr) /\ ("_unnamed" ∉ hdr) /\ ("__proto__" ∉ hdr).

(** The Index Table entries of the lines [ls], the first starting at
    [from], each line counted with a divisor of [d] bytes. *)
Fixpoint entries (d from : nat) (ls : list string) : list (nat * nat) :=
  match ls with
  | [] => []
  | l :: rest =>
      (from, String.length l + d) :: entries d (from + (String.length l + d)) rest
  end.

(** The length of the longest of the lines [ls]. *)
Definition longest (ls : list string) : nat :=
  foldr Nat.max 0 (map String.length ls).

(** A line has no line end inside. *)
Definition unbroken (l : string) : Prop :=
  occurs LF l = false /\ occurs CR l = false.

(** The bytes of a file are all below 128.  On such a file the embedding
    is the code: each byte decodes to one character, so [String.length] of
    a line is both the JavaScript [length] of the decoded line, which
    [buildIndex] counts, and its number of bytes, which [fs.read] counts;
    the line reader knows no line end beside line feed and carriage
    return; and [trim] has no white space to remove beside that of
    [is_space]. *)
Definition is_ascii (c : ascii) : bool := nat_of_ascii c <? 128.

Fixpoint ascii_text (s : string) : bool :=
  match s with
  | EmptyString => true
  | String c r => is_ascii c && ascii_text r
  end.


(** Unfolds the sequencing of fallible steps. *)
Ltac run_bind := unfold mbind, Result_bind in *; simpl in *.

(** Closes a goal [never_undone] between an engine and an update of it. *)
Ltac kept := unfold never_undone; simpl; split_and!; (done || auto).

(** * Properties *)

(** ** Loops *)

Section Loops.
Context {State : Type}.
Variable body : State -> nat -> Result State.

(** A counted loop keeps an invariant indexed by the counter. *)
Lemma for_each_seq_inv (P : nat -> State -> Prop) (n a : nat) (s : State) :
  (forall i s0, a <= i < a + n -> P i s0 ->
      exists s1, body s0 i = Ok s1 /\ P (i + 1) s1) ->
  P a s ->
  exists s', for_each body (seq a n) s = Ok s' /\ P (a + n) s'.
Proof.
  revert a s. induction n as [|n IH]; intros a s Hstep Ha; simpl.
  - exists s. split; [reflexivity|]. by replace (a + 0) with a by lia.
  - destruct (Hstep a s) as (s1 & -> & H1); [lia|done|]. simpl.
    destruct (IH (a + 1) s1) as (s' & Hrun & Hend).
    + intros i s0 Hi. apply Hstep. lia.
    + done.
    + exists s'. replace (S a) with (a + 1) by lia.
      split; [done|]. by replace (a + S n) with (a + 1 + n) by lia.
Qed.

(** A loop that fails never gives a state. *)
Lemma for_each_Ok_inv (P : State -> Prop) (ixs : list nat) (s s' : State) :
  (forall i s0 s1, body s0 i = Ok s1 -> P s0 -> P s1) ->
  P s -> for_each body ixs s = Ok s' -> P s'.
Proof.
  intros Hstep. revert s. induction ixs as [|i ixs IH]; intros s Hs; simpl.
  - by intros [= <-].
  - destruct (body s i) as [s1|e] eqn:Hb; simpl; [|done].
    apply IH. by eapply Hstep.
Qed.
End Loops.

(** ** The unnamed bucket and the keys of [fields] *)

Lemma unnamed_Some o l : unnamed o = Some l <-> own o !! "_unnamed" = Some (FSeq l).
Proof.
  unfold unnamed. destruct (own o !! "_unnamed") as [[c|l']|]; split; congruence.
Qed.

Lemma obj_set_cell_lookup_ne o k c k' :
  k <> k' -> own (obj_set_cell o k c) !! k' = own o !! k'.
Proof.
  intros Hne. unfold obj_set_cell.
  destruct (own o !! k); simpl; [by rewrite lookup_insert_ne|].
  destruct (bool_decide (k = "__proto__") && negb (proto_null o)); simpl.
  - by destruct c.
  - by rewrite lookup_insert_ne.
Qed.

Lemma assign_field_lookup_ne o col c k :
  col <> k -> own (assign_field o col c) !! k = own o !! k.
Proof.
  intros Hne. unfold assign_field.
  destruct (own o !! col) as [[[s|]|l]|] eqn:E; simpl;
    try (by rewrite lookup_insert_ne);
    by apply obj_set_cell_lookup_ne.
Qed.

(** An assignment never removes a key. *)
Lemma assign_field_keeps o col c k :
  has_key o k -> has_key (assign_field o col c) k.
Proof.
  unfold has_key. intros Hk. destruct (decide (col = k)) as [->|Hne].
  - unfold assign_field. destruct Hk as [v Hv]. rewrite Hv.
    destruct v as [[s|]|l]; simpl; try (rewrite lookup_insert_eq; eauto).
    unfold obj_set_cell. rewrite Hv. simpl. rewrite lookup_insert_eq; eauto.
  - by rewrite assign_field_lookup_ne.
Qed.

(** An assignment under a name other than [__proto__] makes it a key. *)
Lemma assign_field_makes o col c :
  col <> "__proto__" -> has_key (assign_field o col c) col.
Proof.
  unfold has_key. intros Hne. unfold assign_field.
  destruct (own o !! col) as [[[s|]|l]|] eqn:E; simpl;
    try (rewrite lookup_insert_eq; eauto).
  - unfold obj_set_cell. rewrite E. simpl. rewrite lookup_insert_eq; eauto.
  - unfold obj_set_cell. rewrite E.
    rewrite bool_decide_eq_false_2 by done. simpl.
    rewrite lookup_insert_eq; eauto.
Qed.

(** The bucket stays an array under assignments, and only an assignment
    under its own name extends it. *)
Lemma assign_field_unnamed o col c l :
  unnamed o = Some l ->
  exists l', unnamed (assign_field o col c) = Some l' /\
             (col <> "_unnamed" -> l' = l) /\ (l <> [] -> l' <> []).
Proof.
  intros Hu. destruct (decide (col = "_unnamed")) as [->|Hne].
  - apply unnamed_Some in Hu. unfold assign_field. rewrite Hu.
    exists (l ++ [c])%list. split; [|split; [done|]].
    + apply unnamed_Some. simpl. by rewrite lookup_insert_eq.
    + intros _. by destruct l.
  - exists l. split; [|done]. unfold unnamed.
    rewrite assign_field_lookup_ne by done. apply Hu.
Qed.

Lemma push_unnamed_Ok o c l :
  unnamed o = Some l ->
  exists o', push_unnamed o c = Ok o' /\ unnamed o' = Some (l ++ [c])%list /\
             forall k, has_key o k -> has_key o' k.
Proof.
  intros Hu. apply unnamed_Some in Hu. unfold push_unnamed. rewrite Hu.
  eexists. split; [done|]. split.
  - apply unnamed_Some. simpl. by rewrite lookup_insert_eq.
  - intros k [v Hv]. unfold has_key. simpl.
    destruct (decide ("_unnamed" = k)) as [<-|Hne].
    + rewrite lookup_insert_eq; eauto.
    + rewrite lookup_insert_ne by done. eauto.
Qed.

(** ** The decoder called on the engine, with the header as an array *)

(** The record the decoder gives is determined up to [fields], which obey
    the laws of the two loops. *)
Lemma buildLineObject_bound (e : Engine) (l : string) (i : Z) (hdr : list string) :
  let cs := splitCSVLine l in
  let excess := bool_decide (length hdr < length cs) in
  exists o,
    buildLineObject (Some e) l i (HArr hdr) =
      Ok {| index := i; line := Some l; cells := cs;
            hasMissingCells := false; hasExcessCells := excess;
            fields := o |} /\
    (exists u, unnamed o = Some u /\
       (length hdr < length cs -> u <> []) /\
       (length cs <= length hdr -> "_unnamed" ∉ hdr -> u = [])) /\
    (forall col, col ∈ hdr -> col <> "__proto__" ->
       col <> "" \/ length cs <= length hdr -> has_key o col).
Proof.
  intros cs excess. unfold buildLineObject. run_bind. fold cs.
  subst excess. case_bool_decide as Hlen.
  - (* more cells than names *)
    destruct (for_each_seq_inv (excess_step hdr cs)
      (fun n o => exists u, unnamed o = Some u /\ (length hdr < n -> u <> []) /\
         forall j col, j < n -> hdr !! j = Some col -> col <> "__proto__" ->
           col <> "" -> has_key o col)
      (length cs) 0
      {| proto_null := false; own := {[ "_unnamed" := FSeq [] ]} |})
      as (o & Hrun & u & Hu & Hne & Hkeys).
    + intros n o0 _ (u & Hu & Hne & Hkeys). unfold excess_step.
      destruct (hdr !! n) as [col|] eqn:Hcol.
      * case_bool_decide as Hempty.
        -- destruct (push_unnamed_Ok o0 (cell_at cs n) u Hu) as (o1 & -> & Hu1 & Hk1).
           exists o1. split; [done|]. exists (u ++ [cell_at cs n])%list.
           split; [done|]. split; [intros _; by destruct u|].
           intros j col' Hj Hj' Hp He. apply Hk1.
           destruct (decide (j = n)) as [->|]; [congruence|].
           apply (Hkeys j col'); [lia|done..].
        -- eexists. split; [done|].
           destruct (assign_field_unnamed o0 col (cell_at cs n) u Hu)
             as (u' & Hu' & _ & Hne').
           exists u'. split; [done|]. split.
           ++ intros Hn. apply lookup_lt_Some in Hcol. lia.
           ++ intros j col' Hj Hj' Hp He.
              destruct (decide (j = n)) as [->|].
              ** assert (col' = col) as -> by congruence.
                 by apply assign_field_makes.
              ** apply assign_field_keeps. apply (Hkeys j col'); [lia|done..].
      * destruct (push_unnamed_Ok o0 (cell_at cs n) u Hu) as (o1 & -> & Hu1 & Hk1).
        exists o1. split; [done|]. exists (u ++ [cell_at cs n])%list.
        split; [done|]. split; [intros _; by destruct u|].
        intros j col' Hj Hj' Hp He. apply Hk1.
        apply lookup_ge_None in Hcol. pose proof (lookup_lt_Some _ _ _ Hj').
        apply (Hkeys j col'); [lia|done..].
    + exists []. split; [done|]. split; [lia|]. intros j col Hj. lia.
    + rewrite Hrun. simpl. exists o. split; [done|]. split.
      * exists u. split; [done|]. split; [intros _; apply Hne; simpl; lia|lia].
      * intros col Hin Hp [He|Hle]; [|lia].
        apply list_elem_of_lookup in Hin as [j Hj].
        pose proof (lookup_lt_Some _ _ _ Hj).
        apply (Hkeys j col); [simpl; lia|done..].
  - (* no more cells than names *)
    destruct (for_each_seq_inv (plain_step hdr cs)
      (fun n o => exists u, unnamed o = Some u /\ ("_unnamed" ∉ hdr -> u = []) /\
         forall j col, j < n -> hdr !! j = Some col -> col <> "__proto__" ->
           has_key o col)
      (length hdr) 0
      {| proto_null := false; own := {[ "_unnamed" := FSeq [] ]} |})
      as (o & Hrun & u & Hu & Hne & Hkeys).
    + intros n o0 Hn (u & Hu & Hne & Hkeys). unfold plain_step.
      destruct (lookup_lt_is_Some_2 hdr n) as [col Hcol]; [lia|].
      rewrite Hcol. simpl. eexists. split; [done|].
      destruct (assign_field_unnamed o0 col (cell_at cs n) u Hu)
        as (u' & Hu' & Hsame & _).
      exists u'. split; [done|]. split.
      * intros Hnot. rewrite Hsame; [by apply Hne|].
        intros ->. apply Hnot. by eapply list_elem_of_lookup_2.
      * intros j col' Hj Hj' Hp.
        destruct (decide (j = n)) as [->|].
        -- assert (col' = col) as -> by congruence. by apply assign_field_makes.
        -- apply assign_field_keeps. apply (Hkeys j col'); [lia|done..].
    + exists []. split; [done|]. split; [done|]. intros j col Hj. lia.
    + rewrite Hrun. simpl. exists o. split; [done|]. split.
      * exists u. split; [done|]. split; [lia|]. intros _. apply Hne.
      * intros col Hin Hp _.
        apply list_elem_of_lookup in Hin as [j Hj].
        pose proof (lookup_lt_Some _ _ _ Hj).
        apply (Hkeys j col); [simpl; lia|done..].
Qed.

(** Whatever the receiver and the header, a record that comes out of the
    decoder carries the line, its cells, and the flag set by the
    constructor. *)
Lemma buildLineObject_Ok_inv this l i h r :
  buildLineObject this l i h = Ok r ->
  index r = i /\ line r = Some l /\ cells r = splitCSVLine l /\
  hasMissingCells r = false.
Proof.
  unfold buildLineObject. run_bind.
  destruct h as [|s|hdr]; destruct this as [e|]; simpl; try done;
    (destruct (header e) as [hdr'|] || idtac); simpl; try done;
    case_bool_decide; simpl;
    match goal with
    | |- context [for_each ?b ?ixs ?s] => destruct (for_each b ixs s); simpl
    end;
    try done; by intros [= <-].
Qed.

(** Called without a receiver the decoder raises, whatever it is given. *)
Lemma buildLineObject_unbound l i h : buildLineObject None l i h = Err TypeError.
Proof. by destruct h. Qed.

(** ** The generator of [iterator] *)

Lemma gen_advance_no_yield ls i h r rest i' h' :
  gen_advance ls i h <> (Yield r, rest, i', h').
Proof.
  revert i h. induction ls as [|l ls IH]; intros i h; simpl; [done|].
  destruct (i + 1 =? 1); [apply IH|].
  by rewrite buildLineObject_unbound.
Qed.

Lemma gen_next_no_yield m r m' : gen_next m <> (Yield r, m').
Proof.
  unfold gen_next. destruct (iterator_object (eng m)) as [g|]; [|done].
  destruct (g_done g); [done|]. destruct (g_stream g) as [id|]; [|done].
  destruct (gen_advance _ _ _) as [[[res rest] i'] h'] eqn:E.
  destruct res as [r0| |e]; try done.
  by apply gen_advance_no_yield in E.
Qed.

(** A pass over the generator receives no record. *)
Lemma iterator_pass_no_record fuel m : (iterator_pass fuel m).1.1 = [].
Proof.
  destruct fuel as [|fuel]; simpl; [done|].
  destruct (gen_next m) as [[r| |e] m'] eqn:E; try done.
  by apply gen_next_no_yield in E.
Qed.

Lemma buildLineObject_effective e l i h hdr :
  effective_header e h = Some hdr ->
  buildLineObject (Some e) l i h = buildLineObject (Some e) l i (HArr hdr).
Proof.
  destruct h as [|s|hdr']; simpl.
  - intros He. unfold buildLineObject. run_bind. by rewrite He.
  - by intros [= <-].
  - by intros [= <-].
Qed.

(** ** Duplicate column names (C7) *)

(** C7, evaluated.  With the header [a,a] the row [,x] assigns [null] and
    then ["x"] to the name [a]: the field ends as the single value ["x"],
    the earlier [null] is overwritten and no sequence is built.  The row
    [x,] with the same two assignments in the other order gives the
    sequence [["x", null]]. *)
Theorem duplicate_name_after_null_overwrites :
  buildLineObject (Some (engine_with_header ["a"; "a"])) ",x" 1 HNull =
    Ok (record 1 ",x" [""; "x"] false
          [("_unnamed", FSeq []); ("a", FCell (Some "x"))]) /\
  buildLineObject (Some (engine_with_header ["a"; "a"])) "x," 1 HNull =
    Ok (record 1 "x," ["x"; ""] false
          [("_unnamed", FSeq []); ("a", FSeq [Some "x"; None])]).
Proof. split; vm_compute; reflexivity. Qed.

(** Once a name holds a string or a sequence, every later assignment to it
    is kept, in order. *)
Lemma assign_field_accumulates o col c :
  (forall s, own o !! col = Some (FCell (Some s)) ->
     own (assign_field o col c) !! col = Some (FSeq [Some s; c])) /\
  (forall l, own o !! col = Some (FSeq l) ->
     own (assign_field o col c) !! col = Some (FSeq (l ++ [c]))).
Proof.
  split; intros x Hx; unfold assign_field; rewrite Hx; simpl;
    by rewrite lookup_insert_eq.
Qed.

(** ** Keys of [fields] and the unnamed bucket (C8) *)

(** C8 as stated fails: the row [1,2] under the header [a,b] has no excess
    cells, and its record has the unnamed bucket all the same (the
    constructor of the record always creates it, empty). *)
Lemma unnamed_bucket_present_without_excess :
  exists r,
    buildLineObject (Some (engine_with_header ["a"; "b"])) "1,2" 1 HNull = Ok r /\
    hasExcessCells r = false /\
    own (fields r) !! "_unnamed" = Some (FSeq []).
Proof. eexists. split; [vm_compute; reflexivity|]. split; reflexivity. Qed.

(** With excess cells a column without a name is not a key: its cell goes
    to the bucket. *)
Lemma empty_name_not_a_key_with_excess :
  exists r,
    buildLineObject (Some (engine_with_header ["a"; ""])) "1,2,3" 1 HNull = Ok r /\
    own (fields r) !! "" = None /\
    own (fields r) !! "_unnamed" = Some (FSeq [Some "2"; Some "3"]).
Proof. eexists. split; [vm_compute; reflexivity|]. split; reflexivity. Qed.

(** A column named [__proto__] does not become an own key. *)
Lemma proto_name_not_a_key :
  exists r,
    buildLineObject (Some (engine_with_header ["__proto__"])) "1" 1 HNull = Ok r /\
    own (fields r) !! "__proto__" = None.
Proof. eexists. split; [vm_compute; reflexivity|]. reflexivity. Qed.

(** C8, amended.  For every line decoded on the engine against a header,
    the decoder returns a record; its [fields] has every header column
    name that is neither empty nor [__proto__] as a key; the unnamed
    bucket is a key of every record; [hasExcessCells] says whether there
    are more cells than header names; the bucket is not empty when there
    are, and is empty when there are not and no column is itself named
    [_unnamed]. *)
Theorem fields_keys_and_unnamed_bucket (e : Engine) (l : string) (i : Z)
    (h : header_arg) (hdr : list string) :
  effective_header e h = Some hdr ->
  exists r,
    buildLineObject (Some e) l i h = Ok r /\
    (forall col, col ∈ hdr -> col <> "" -> col <> "__proto__" ->
       has_key (fields r) col) /\
    has_key (fields r) "_unnamed" /\
    (hasExcessCells r = true <-> length hdr < length (cells r)) /\
    exists u, unnamed (fields r) = Some u /\
      (hasExcessCells r = true -> u <> []) /\
      (hasExcessCells r = false -> "_unnamed" ∉ hdr -> u = []).
Proof.
  intros He. rewrite (buildLineObject_effective _ _ _ _ _ He).
  destruct (buildLineObject_bound e l i hdr)
    as (o & -> & (u & Hu & Hne & Hemp) & Hkeys).
  eexists. split; [reflexivity|]. simpl. split; [|split; [|split]].
  - intros col Hin Hn Hp. apply Hkeys; auto.
  - apply unnamed_Some in Hu. unfold has_key. rewrite Hu. eauto.
  - rewrite bool_decide_eq_true. done.
  - exists u. split; [done|]. split.
    + rewrite bool_decide_eq_true. done.
    + rewrite bool_decide_eq_false. intros Hle. apply Hemp. lia.
Qed.

Lemma fields_keys_and_unnamed_bucket_witness :
  exists r,
    buildLineObject (Some (engine_with_header ["a"; "b"])) "3,4,5" 2 HNull = Ok r /\
    (forall col, col ∈ ["a"; "b"] -> col <> "" -> col <> "__proto__" ->
       has_key (fields r) col) /\
    has_key (fields r) "_unnamed" /\
    (hasExcessCells r = true <-> length ["a"; "b"] < length (cells r)) /\
    exists u, unnamed (fields r) = Some u /\
      (hasExcessCells r = true -> u <> []) /\
      (hasExcessCells r = false -> "_unnamed" ∉ ["a"; "b"] -> u = []).
Proof.
  apply (fields_keys_and_unnamed_bucket
           (engine_with_header ["a"; "b"]) "3,4,5" 2 HNull ["a"; "b"]).
  reflexivity.
Defined.

(** ** The flag [hasMissingCells] (C9) *)

Lemma getLine_Ok_inv w v m r m' :
  getLine w v m = (Ok r, m') -> hasMissingCells r = false.
Proof.
  unfold getLine.
  destruct (negb (is_open (eng m))); [done|].
  destruct (negb (is_indexed (eng m)) || (length (index_pool (eng m)) =? 0));
    [done|].
  destruct (lookup_entry (eng m) v) as [[off len]|]; [|done].
  destruct (readAtIndex w (eng m) off len) as [[text e']|]; [|done].
  intros [= Hr _]. by apply buildLineObject_Ok_inv in Hr as (_ & _ & _ & ?).
Qed.

(** C9.  Every record the decoder returns has [hasMissingCells = false],
    whoever calls it, and so has every record [getLine] returns; the
    decoder called on the engine with a header always returns a record,
    also for a row with fewer cells than the header has names, and the
    only flag it computes is [hasExcessCells].  (The generator of
    [iterator] yields no record at all, see [gen_next_no_yield].) *)
Theorem hasMissingCells_never_computed :
  (forall this l i h r,
     buildLineObject this l i h = Ok r -> hasMissingCells r = false) /\
  (forall w v m r m',
     getLine w v m = (Ok r, m') -> hasMissingCells r = false) /\
  (forall e l i hdr, exists r,
     buildLineObject (Some e) l i (HArr hdr) = Ok r /\
     hasMissingCells r = false /\
     hasExcessCells r = bool_decide (length hdr < length (cells r))).
Proof.
  split; [|split].
  - intros this l i h r Hr. by apply buildLineObject_Ok_inv in Hr as (_ & _ & _ & ?).
  - apply getLine_Ok_inv.
  - intros e l i hdr.
    destruct (buildLineObject_bound e l i hdr) as (o & -> & _).
    eexists. split; [reflexivity|]. done.
Qed.

Lemma hasMissingCells_never_computed_witness :
  buildLineObject (Some (engine_with_header ["a"; "b"])) "6" 3 HNull =
    Ok (record 3 "6" ["6"] false
          [("_unnamed", FSeq []); ("a", FCell (Some "6")); ("b", FCell None)]) /\
  hasMissingCells
    (record 3 "6" ["6"] false
       [("_unnamed", FSeq []); ("a", FCell (Some "6")); ("b", FCell None)]) = false.
Proof.
  split.
  - vm_compute. reflexivity.
  - apply (proj1 hasMissingCells_never_computed
             (Some (engine_with_header ["a"; "b"])) "6" 3%Z HNull).
    vm_compute. reflexivity.
Defined.

(** ** Strings and buffers *)

Lemma length_append_str (a b : string) :
  String.length (String.append a b) = String.length a + String.length b.
Proof. induction a as [|c a IH]; simpl; [done|]. by rewrite IH. Qed.

Lemma length_substring_str (s : string) (n m : nat) :
  String.length (substring n m s) = Nat.min m (String.length s - n).
Proof.
  revert n m. induction s as [|c s IH]; intros [|n] [|m];
    cbn [substring String.length]; rewrite ?IH; lia.
Qed.

Lemma substring_whole (b : string) : substring 0 (String.length b) b = b.
Proof. induction b as [|c b IH]; simpl; [done|]. by rewrite IH. Qed.

Lemma substring_append_skip (a b : string) :
  substring (String.length a) (String.length b) (String.append a b) = b.
Proof.
  induction a as [|c a IH]; simpl; [apply substring_whole|done].
Qed.

Lemma substring_append_front (a b : string) (n : nat) :
  n <= String.length a ->
  substring 0 n (String.append a b) = substring 0 n a.
Proof.
  revert n. induction a as [|c a IH]; intros [|n] Hn; simpl in *; try done.
  - by destruct b.
  - lia.
  - rewrite IH; [done|lia].
Qed.

Lemma length_Buffer_alloc n : String.length (Buffer_alloc n) = n.
Proof. induction n as [|n IH]; simpl; [done|]. by rewrite IH. Qed.

(** A read leaves the size of the buffer alone, and reading the same place
    again leaves its content alone. *)
Lemma fs_read_length w fd b len pos n b' :
  fs_read w fd b len pos = Ok (n, b') -> String.length b' = String.length b.
Proof.
  unfold fs_read. destruct fd as [fd|]; [|done].
  destruct (len =? 0); [by intros [= _ <-]|].
  destruct (String.length b =? 0); [done|].
  destruct (String.length b <? len) eqn:Hlt; [done|].
  apply Nat.ltb_ge in Hlt. intros [= _ <-].
  rewrite length_append_str, !length_substring_str. lia.
Qed.

Lemma fs_read_again w fd b len pos n b' :
  fs_read w fd b len pos = Ok (n, b') ->
  fs_read w fd b' len pos = Ok (n, b').
Proof.
  intros Hr. pose proof (fs_read_length _ _ _ _ _ _ _ Hr) as Hlen.
  revert Hr. unfold fs_read. destruct fd as [fd|]; [|done].
  destruct (len =? 0); [by intros [= <- <-]|].
  rewrite Hlen.
  destruct (String.length b =? 0); [done|].
  destruct (String.length b <? len) eqn:Hlt; [done|].
  apply Nat.ltb_ge in Hlt. intros [= <- <-]. do 2 f_equal.
  set (bytes := substring pos len (file_bytes w)).
  set (tail := substring (String.length bytes)
                 (String.length b - String.length bytes) b).
  assert (String.length bytes <= len)
    by (unfold bytes; rewrite length_substring_str; lia).
  assert (String.length tail = String.length b - String.length bytes) as Ht
    by (unfold tail; rewrite length_substring_str; lia).
  rewrite <- Ht. by rewrite substring_append_skip.
Qed.

(** ** What [getLine] depends on *)

Lemma buildLineObject_header e1 e2 l i h :
  header e1 = header e2 ->
  buildLineObject (Some e1) l i h = buildLineObject (Some e2) l i h.
Proof. intros He. unfold buildLineObject. run_bind. by rewrite He. Qed.

Lemma lookup_entry_same e1 e2 v :
  same_index e1 e2 -> lookup_entry e1 v = lookup_entry e2 v.
Proof.
  intros (_ & _ & Hp & Hl & _). unfold lookup_entry. by rewrite Hp, Hl.
Qed.

Lemma getLine_same_index w v m1 m2 :
  same_index (eng m1) (eng m2) ->
  (getLine w v m1).1 = (getLine w v m2).1 /\
  same_index (eng (getLine w v m1).2) (eng (getLine w v m2).2).
Proof.
  intros Hs. pose proof Hs as (Ho & Hi & Hp & Hl & Hh & Hb & Hf).
  unfold getLine. rewrite (lookup_entry_same _ _ v Hs), Ho, Hi, Hp.
  destruct (negb (is_open (eng m2))); [done|].
  destruct (negb (is_indexed (eng m2)) || (length (index_pool (eng m2)) =? 0));
    [done|].
  destruct (lookup_entry (eng m2) v) as [[off len]|]; [|done].
  unfold readAtIndex. rewrite Hb, Hf. run_bind.
  destruct (fs_read w (reading_handle (eng m2)) _ len off) as [[n b']|];
    simpl; [|done].
  destruct (reading_buffer (eng m2)) as [b|]; simpl.
  - split; [by apply buildLineObject_header|].
    unfold same_index; simpl; repeat split; congruence.
  - split; [by apply buildLineObject_header|exact Hs].
Qed.

(** Fetching the same line again returns the same record and leaves the
    engine as it is: the shared buffer already holds these bytes. *)
Lemma getLine_again w v m r m1 :
  getLine w v m = (Ok r, m1) -> getLine w v m1 = (Ok r, m1).
Proof.
  unfold getLine.
  destruct (negb (is_open (eng m))) eqn:Ho; [done|].
  destruct (negb (is_indexed (eng m)) || (length (index_pool (eng m)) =? 0))
    eqn:Hi; [done|].
  destruct (lookup_entry (eng m) v) as [[off len]|] eqn:Hl; [|done].
  unfold readAtIndex. run_bind.
  destruct (fs_read w (reading_handle (eng m)) _ len off) as [[n b']|] eqn:Hr;
    simpl; [|done].
  destruct (reading_buffer (eng m)) as [b|] eqn:Hb; simpl in *.
  - intros [= Hrec <-]. simpl. rewrite Ho, Hi.
    replace (lookup_entry (set_reading_buffer (Some b') (eng m)) v)
      with (lookup_entry (eng m) v) by (by destruct v).
    rewrite Hl. rewrite (fs_read_again _ _ _ _ _ _ _ Hr). simpl.
    rewrite <- Hrec. reflexivity.
  - intros [= Hrec <-]. simpl. rewrite Ho, Hi, Hl, Hb. simpl.
    rewrite Hr. simpl. by rewrite Hrec.
Qed.

(** ** The invariant of the engine *)

Lemma well_formed_new w fname opn m :
  new_CSVFileParser w fname opn = Ok m -> well_formed m = true.
Proof.
  unfold new_CSVFileParser. destruct opn; [|by intros [= <-]].
  unfold open. simpl. intros [= <-]. done.
Qed.

Lemma well_formed_open w m m' :
  open w m = Ok m' -> well_formed m' = true /\ is_open (eng m') = true.
Proof.
  unfold open. destruct (is_open (eng m)); [done|]. intros [= <-].
  unfold well_formed. simpl. split; [|done].
  rewrite length_app. simpl.
  rewrite !bool_decide_eq_true_2; [done|lia|].
  destruct (reading_handle (eng m)); eauto.
Qed.

Lemma well_formed_close p m m' :
  close p m = Ok m' -> well_formed m' = true /\ is_open (eng m') = false.
Proof.
  unfold close. destruct (negb (is_open (eng m))); [done|].
  destruct (iterator_stream (eng m)); [|done]. by intros [= <-].
Qed.

Lemma well_formed_rewind w m m' :
  rewind w m = Ok m' -> well_formed m' = true /\ is_open (eng m') = true.
Proof.
  unfold rewind. destruct (negb (is_open (eng m))); [done|]. run_bind.
  destruct (close true m) as [m1|]; [|done]. apply well_formed_open.
Qed.

Lemma well_formed_buildIndex w max m m' :
  buildIndex w max m = Ok m' ->
  well_formed m' = true /\ is_open (eng m') = true /\ is_indexed (eng m') = true.
Proof.
  unfold buildIndex. destruct (negb (is_open (eng m))); [done|].
  destruct (iterator_stream (eng m)) as [id|]; [|done].
  destruct (scan _ _ _) as [e1 ml]. run_bind.
  destruct (close true _) as [m1|]; [|done].
  destruct (open w m1) as [m2|] eqn:Ho; [|done].
  apply well_formed_open in Ho as [Hw Hop]. intros [= <-].
  unfold well_formed in *. simpl in *. by rewrite Hop in *.
Qed.

Lemma well_formed_getLine w v m :
  well_formed m = true -> well_formed (getLine w v m).2 = true.
Proof.
  intros Hw. unfold getLine.
  destruct (negb (is_open (eng m))); [done|].
  destruct (negb (is_indexed (eng m)) || _); [done|].
  destruct (lookup_entry (eng m) v) as [[off len]|]; [|done].
  unfold readAtIndex. run_bind.
  destruct (fs_read _ _ _ _ _) as [[n b']|]; simpl; [|done].
  by destruct (reading_buffer (eng m)).
Qed.

Lemma well_formed_iterator m m' :
  well_formed m = true -> iterator m = Ok m' -> well_formed m' = true.
Proof.
  intros Hw. unfold iterator. destruct (negb (is_open (eng m))); [done|].
  destruct (is_iterator_active (eng m)); by intros [= <-].
Qed.

Lemma well_formed_gen_next m :
  well_formed m = true -> well_formed (gen_next m).2 = true.
Proof.
  intros Hw. unfold gen_next.
  destruct (iterator_object (eng m)) as [g|]; [|done].
  destruct (g_done g); [done|]. destruct (g_stream g) as [id|]; [|done].
  destruct (gen_advance _ _ _) as [[[res rest] i'] h']. simpl.
  unfold well_formed in *. simpl. by rewrite length_alter.
Qed.

(** Every reachable state satisfies the invariant. *)
Lemma reachable_well_formed w m : reachable w m -> well_formed m = true.
Proof.
  induction 1 as [fname opn m Hn|m m' _ _ Ho|p m m' _ _ Hc|m m' _ _ Hr
                 |max m m' _ _ Hb|v m _ IH|m m' _ IH Hi|m _ IH].
  - by eapply well_formed_new.
  - by apply well_formed_open in Ho as [? _].
  - by apply well_formed_close in Hc as [? _].
  - by apply well_formed_rewind in Hr as [? _].
  - by apply well_formed_buildIndex in Hb as [? _].
  - by apply well_formed_getLine.
  - by eapply well_formed_iterator.
  - by apply well_formed_gen_next.
Qed.

(** ** [rewind] (C10) *)

(** C10.  On an open engine [rewind()] succeeds and leaves [filename],
    [isIndexed], [header], [lines], [columns], [size], the Index Table, the
    read buffer and the positioned-read handle as they were; the engine is
    open again, and [getLine] gives for every argument the result it gave
    before the rewind; in particular a record fetched just before the
    rewind is returned again after it. *)
Theorem rewind_frame (w : World) (m : Machine) :
  well_formed m = true -> is_open (eng m) = true ->
  exists m',
    rewind w m = Ok m' /\
    filename (eng m') = filename (eng m) /\
    is_indexed (eng m') = is_indexed (eng m) /\
    header (eng m') = header (eng m) /\
    lines (eng m') = lines (eng m) /\
    columns (eng m') = columns (eng m) /\
    size (eng m') = size (eng m) /\
    index_pool (eng m') = index_pool (eng m) /\
    reading_buffer (eng m') = reading_buffer (eng m) /\
    reading_handle (eng m') = reading_handle (eng m) /\
    is_Some (reading_handle (eng m')) /\
    is_open (eng m') = true /\
    (forall v, (getLine w v m').1 = (getLine w v m).1) /\
    (forall v r m0, getLine w v m0 = (Ok r, m) -> (getLine w v m').1 = Ok r).
Proof.
  intros Hw Ho. unfold well_formed in Hw. rewrite Ho in Hw.
  apply andb_prop in Hw as [Hfd Hst]. apply bool_decide_eq_true in Hfd.
  destruct Hfd as [fd Hfd].
  destruct (iterator_stream (eng m)) as [id|] eqn:Hid; [|done].
  unfold rewind, close, open. rewrite Ho, Hid. run_bind. rewrite Hfd.
  eexists. split; [reflexivity|]. simpl.
  assert (forall v, (getLine w v
     {| eng := set_session (Some (length (alter close_rl id (streams m))))
                 (Some fd) true
                 (if bool_decide (line_divisor (eng m) = "")
                  then sniff_divisor w else line_divisor (eng m))
                 (set_session None (Some fd) false (line_divisor (eng m)) (eng m));
        streams := (alter close_rl id (streams m) ++
                    [{| rl_lines := readline_lines (file_bytes w);
                        rl_closed := false |}])%list |}).1 = (getLine w v m).1)
    as Hsame.
  { intros v. apply getLine_same_index. unfold same_index. simpl.
    by rewrite Ho, Hfd. }
  split_and!; try done; eauto.
  intros v r m0 Hget. rewrite Hsame.
  apply getLine_again in Hget. by rewrite Hget.
Qed.

Lemma rewind_frame_witness :
  exists m',
    rewind sample_lf indexed_sample = Ok m' /\
    filename (eng m') = filename (eng indexed_sample) /\
    is_indexed (eng m') = is_indexed (eng indexed_sample) /\
    header (eng m') = header (eng indexed_sample) /\
    lines (eng m') = lines (eng indexed_sample) /\
    columns (eng m') = columns (eng indexed_sample) /\
    size (eng m') = size (eng indexed_sample) /\
    index_pool (eng m') = index_pool (eng indexed_sample) /\
    reading_buffer (eng m') = reading_buffer (eng indexed_sample) /\
    reading_handle (eng m') = reading_handle (eng indexed_sample) /\
    is_Some (reading_handle (eng m')) /\
    is_open (eng m') = true /\
    (forall v, (getLine sample_lf v m').1 = (getLine sample_lf v indexed_sample).1) /\
    (forall v r m0, getLine sample_lf v m0 = (Ok r, indexed_sample) ->
       (getLine sample_lf v m').1 = Ok r).
Proof.
  apply (rewind_frame sample_lf indexed_sample); vm_compute; reflexivity.
Defined.

(** ** The two read paths on the first sample (C1, C2, C3, C4) *)

(** C4, evaluated.  After [buildIndex()] on the sample with three data
    rows, [lines] is 4 (the header line is counted) and the Index Table has
    the three entries of the rows, at positions 0 to 2; position 3 and
    position [lines] have none.  The offsets do increase. *)
Theorem index_table_has_one_entry_less_than_lines :
  exists m,
    indexed sample_lf (-1) = Ok m /\
    lines (eng m) = 4 /\
    index_pool (eng m) = [(4, 4); (8, 6); (14, 2)] /\
    length (index_pool (eng m)) = 3 /\
    index_pool (eng m) !! 3 = None /\
    index_pool (eng m) !! lines (eng m) = None.
Proof. eexists. split; [vm_compute; reflexivity|]. by split_and!. Qed.

(** C2, evaluated.  On the sample, [columns] is 2 but [lines] is 4, not 3.
    The decoder, given the three rows, builds the fields expected of them
    (the unnamed bucket being a key of [fields] each time). *)
Theorem sample_counts_and_rows :
  exists m,
    indexed sample_lf (-1) = Ok m /\
    columns (eng m) = 2 /\
    lines (eng m) = 4 /\
    header (eng m) = Some ["a"; "b"] /\
    buildLineObject (Some (eng m)) "1,2" 1 HNull =
      Ok (record 1 "1,2" ["1"; "2"] false
            [("_unnamed", FSeq []); ("a", FCell (Some "1")); ("b", FCell (Some "2"))]) /\
    buildLineObject (Some (eng m)) "3,4,5" 2 HNull =
      Ok (record 2 "3,4,5" ["3"; "4"; "5"] true
            [("_unnamed", FSeq [Some "5"]); ("a", FCell (Some "3"));
             ("b", FCell (Some "4"))]) /\
    buildLineObject (Some (eng m)) "6" 3 HNull =
      Ok (record 3 "6" ["6"] false
            [("_unnamed", FSeq []); ("a", FCell (Some "6")); ("b", FCell None)]).
Proof.
  eexists. split; [vm_compute; reflexivity|].
  split_and!; vm_compute; reflexivity.
Qed.

(** What [getLine] returns on the sample for the three row numbers: row 1
    is refused by [fs.read] (its entry, read from position 1 of the table,
    is that of the longest row, one byte longer than the buffer); row 2 is
    the third data row; row 3 has no entry. *)
Lemma sample_getLine_rows :
  getLine_indexed sample_lf (-1) (VInt 1) = Err FsOutOfRange /\
  getLine_indexed sample_lf (-1) (VInt 2) =
    Ok (record 2 "6" ["6"] false
          [("_unnamed", FSeq []); ("a", FCell (Some "6")); ("b", FCell None)]) /\
  getLine_indexed sample_lf (-1) (VInt 3) = Err TypeError.
Proof. split_and!; vm_compute; reflexivity. Qed.

(** C1, evaluated.  On the indexed sample [getLine(2)] returns a record
    with index 2 made of the third data row, [6].  A pass over
    [iterator()], on the indexed engine or on one that was only opened,
    receives no record: the first [next()] that reaches a data row fails
    with [TypeError].  Had the decoder its receiver, the second record of
    the pass would be the one of the second data row, [3,4,5], numbered
    3. *)
Theorem getLine_and_iterator_disagree :
  getLine_indexed sample_lf (-1) (VInt 2) =
    Ok (record 2 "6" ["6"] false
          [("_unnamed", FSeq []); ("a", FCell (Some "6")); ("b", FCell None)]) /\
  pass_indexed sample_lf (-1) 5 = Ok ([], Failed TypeError) /\
  pass_unindexed sample_lf 5 = Ok ([], Failed TypeError) /\
  buildLineObject (Some (eng indexed_sample)) "3,4,5" 3 (HArr ["a"; "b"]) =
    Ok (record 3 "3,4,5" ["3"; "4"; "5"] true
          [("_unnamed", FSeq [Some "5"]); ("a", FCell (Some "3"));
           ("b", FCell (Some "4"))]).
Proof. split_and!; vm_compute; reflexivity. Qed.

(** C3, evaluated.  On the indexed sample ([lines] = 4): row numbers 3 and
    4 lie in [1, lines] and have no Index Table entry, and [getLine] fails
    on them with [TypeError], as it does on the number 1.5; [getLine(0)]
    and [getLine(lines + 1)] fail with [RangeError]; before [buildIndex]
    [getLine] fails with the state error. *)
Theorem getLine_missing_entry_is_TypeError :
  getLine_indexed sample_lf (-1) (VInt 3) = Err TypeError /\
  getLine_indexed sample_lf (-1) (VInt 4) = Err TypeError /\
  getLine_indexed sample_lf (-1) (VFrac 1) = Err TypeError /\
  getLine_indexed sample_lf (-1) (VInt 0) = Err RangeError /\
  getLine_indexed sample_lf (-1) (VInt 5) = Err RangeError /\
  (m ← new_CSVFileParser sample_lf "data.csv" true;
   (getLine sample_lf (VInt 1) m).1) = Err (StateError NotIndexed).
Proof. split_and!; vm_compute; reflexivity. Qed.

(** ** A row cap (C5) *)


(** The caps 1 and 2 on the sample: with [max: 1] the table is empty too,
    with [max: 2] it has the entry of the first data row. *)
Lemma sample_small_caps :
  (exists m, indexed sample_lf 1 = Ok m /\
     lines (eng m) = 1 /\ index_pool (eng m) = [] /\
     (getLine sample_lf (VInt 2) m).1 = Err (StateError NotIndexed)) /\
  (exists m, indexed sample_lf 2 = Ok m /\
     lines (eng m) = 2 /\ index_pool (eng m) = [(4, 4)] /\
     (getLine sample_lf (VInt 3) m).1 = Err RangeError).
Proof.
  split_and!; (eexists; split; [vm_compute; reflexivity|]);
    split_and!; vm_compute; reflexivity.
Qed.

(** ** The line divisor (C6) *)

(** The constructor sets the divisor to a line feed, and [open()] looks
    into the file only when the divisor is empty: whatever the file, the
    opened engine has the one-byte divisor. *)
Lemma open_never_sniffs w fname m :
  new_CSVFileParser w fname true = Ok m ->
  line_divisor (eng m) = String LF "".
Proof. unfold new_CSVFileParser, open. simpl. by intros [= <-]. Qed.

(** C6, evaluated.  The second sample has lines ending in carriage return
    and line feed (its first 8 KiB contain the pair); the opened engine
    still has the divisor [\n], and [buildIndex] records the same entries
    as for the first sample, one byte short per line: the first data row
    occupies the 5 bytes from offset 5, its entry says 4 bytes from
    offset 4. *)
Theorem crlf_file_keeps_lf_divisor :
  exists m0 m,
    new_CSVFileParser sample_crlf "data.csv" true = Ok m0 /\
    includes_crlf (substring 0 (1024 * 8) (file_bytes sample_crlf)) = true /\
    line_divisor (eng m0) = String LF "" /\
    buildIndex sample_crlf (-1) m0 = Ok m /\
    line_divisor (eng m) = String LF "" /\
    index_pool (eng m) = [(4, 4); (8, 6); (14, 2)] /\
    substring 5 5 (file_bytes sample_crlf) = String.append "1,2" (String CR (String LF "")) /\
    substring 4 4 (file_bytes sample_crlf) = String.append (String LF "") "1,2".
Proof.
  do 2 eexists. split; [vm_compute; reflexivity|].
  split; [vm_compute; reflexivity|]. split; [vm_compute; reflexivity|].
  split; [vm_compute; reflexivity|]. split_and!; vm_compute; reflexivity.
Qed.

(** ** The scan of [buildIndex], for every file *)

Lemma tiled_snoc from p to len :
  tiled from p to -> 0 < len -> tiled from (p ++ [(to, len)]) (to + len).
Proof.
  revert from. induction p as [|[off l] p IH]; intros from; simpl.
  - intros ->. done.
  - intros (-> & Hl & Ht) Hlen. split_and!; [done..|]. by apply IH.
Qed.

Lemma tiled_bounds from p to i off len :
  tiled from p to -> p !! i = Some (off, len) ->
  from <= off /\ 0 < len /\ off + len <= to.
Proof.
  revert from i. induction p as [|[off' l'] p IH]; intros from i; simpl; [done|].
  intros (-> & Hl & Ht). destruct i as [|i]; simpl.
  - intros [= <- <-]. split_and!; [lia..|].
    clear IH. revert Ht. generalize (from + l'). clear.
    induction p as [|[o l] p IH]; simpl; intros n; [lia|].
    intros (-> & Hl & Ht). apply IH in Ht. lia.
  - intros Hi. destruct (IH _ _ Ht Hi) as (? & ? & ?). lia.
Qed.

(** In a tiling the offsets increase strictly. *)
Lemma tiled_increasing from p to i j a b :
  tiled from p to -> i < j -> p !! i = Some a -> p !! j = Some b -> a.1 < b.1.
Proof.
  revert from i j. induction p as [|[off l] p IH]; intros from i j; simpl; [done|].
  intros (-> & Hl & Ht) Hij. destruct j as [|j]; [lia|].
  destruct i as [|i]; simpl.
  - intros [= <-] Hb. destruct b as [ob lb].
    destruct (tiled_bounds _ _ _ _ _ _ Ht Hb) as (Hge & _). simpl.
    clear IH. lia.
  - intros Ha Hb. apply (IH (from + l) i j); [done|lia|done..].
Qed.

Lemma length_pos_str (s : string) : s <> "" -> 0 < String.length s.
Proof. destruct s; simpl; [done|lia]. Qed.

Lemma scan_keeps_inv max ls e ml :
  scan_inv e -> scan_inv (scan max ls (e, ml)).1.
Proof.
  revert e ml. induction ls as [|l ls IH]; intros e ml Hinv; simpl; [done|].
  destruct Hinv as [Hdiv Hinv].
  destruct (lines e) as [|n] eqn:Hn; simpl.
  - apply IH. split; [done|]. simpl. rewrite Hinv.
    split; [done|]. by eexists.
  - destruct ((0 <=? max)%Z && (max <=? Z.of_nat (S n))%Z); simpl.
    + split; [done|]. by rewrite Hn.
    + apply IH. split; [done|]. simpl.
      destruct Hinv as [Hlen [start Ht]].
      replace (n + 1) with (S n) by lia.
      split; [rewrite length_app; simpl; lia|].
      exists start. apply tiled_snoc; [done|].
      pose proof (length_pos_str _ Hdiv). lia.
Qed.

(** The number of lines the scan ends with: all of them, or as many as
    the cap allows once the header line is in. *)
Lemma scan_lines_from max ls e ml :
  0 < lines e ->
  lines (scan max ls (e, ml)).1 =
    if (max <? 0)%Z then lines e + length ls
    else Nat.min (lines e + length ls) (Nat.max (lines e) (Z.to_nat max)).
Proof.
  revert e ml. induction ls as [|l ls IH]; intros e ml Hpos; simpl.
  - destruct (max <? 0)%Z; lia.
  - destruct (lines e =? 0) eqn:H0; [apply Nat.eqb_eq in H0; lia|].
    destruct (0 <=? max)%Z eqn:Hm; simpl.
    + destruct (max <=? Z.of_nat (lines e))%Z eqn:Hc; simpl.
      * replace (max <? 0)%Z with false by lia. lia.
      * rewrite IH by (simpl; lia). simpl.
        replace (max <? 0)%Z with false by lia. lia.
    + rewrite IH by (simpl; lia). simpl.
      replace (max <? 0)%Z with true by lia. lia.
Qed.

Lemma scan_lines max ls e ml :
  lines e = 0 ->
  lines (scan max ls (e, ml)).1 =
    if (max <? 0)%Z then length ls
    else Nat.min (length ls) (Nat.max 1 (Z.to_nat max)).
Proof.
  intros H0. destruct ls as [|l ls]; simpl.
  - rewrite H0. destruct (max <? 0)%Z; lia.
  - rewrite H0. simpl. rewrite scan_lines_from by (simpl; lia). simpl.
    reflexivity.
Qed.

(** [size] grows by the bytes counted for the lines the scan took. *)
Lemma scan_size_from max ls e ml :
  0 < lines e ->
  size (scan max ls (e, ml)).1 =
    size e + counted_bytes (String.length (line_divisor e))
               (take (lines (scan max ls (e, ml)).1 - lines e) ls).
Proof.
  revert e ml. induction ls as [|l ls IH]; intros e ml Hpos.
  - simpl. rewrite take_nil. unfold counted_bytes. simpl. lia.
  - pose proof (scan_lines_from max (l :: ls) e ml Hpos) as Hl.
    simpl in Hl |- *.
    destruct (lines e =? 0) eqn:H0; [apply Nat.eqb_eq in H0; lia|].
    destruct ((0 <=? max)%Z && (max <=? Z.of_nat (lines e))%Z) eqn:Hc; simpl.
    + rewrite Nat.sub_diag. unfold counted_bytes. simpl. lia.
    + match goal with
      | |- context [scan max ls (?e', ?ml')] =>
          rewrite (IH e' ml') by (simpl; lia);
          pose proof (scan_lines_from max ls e' ml') as Hl';
          destruct (lines (scan max ls (e', ml')).1 - lines e) as [|d] eqn:Hd
      end; simpl in *.
      * exfalso. destruct (max <? 0)%Z; lia.
      * replace (lines _ - (lines e + 1)) with d by lia.
        unfold counted_bytes. simpl. lia.
Qed.

Lemma scan_size max ls e ml :
  lines e = 0 -> size e = 0 ->
  size (scan max ls (e, ml)).1 =
    counted_bytes (String.length (line_divisor e))
      (take (lines (scan max ls (e, ml)).1) ls).
Proof.
  intros H0 Hs. destruct ls as [|l ls].
  - simpl. by rewrite Hs, take_nil.
  - cbn [scan]. rewrite H0. cbn [Nat.eqb].
    set (e1 := set_header (splitCSVLine l) _).
    assert (lines e1 = 1) as Hl1 by (simpl; lia).
    assert (size e1 = String.length l + String.length (line_divisor e)) as Hs1
      by (simpl; lia).
    assert (line_divisor e1 = line_divisor e) as Hd1 by done.
    pose proof (scan_lines_from max ls e1 ml) as Hl'.
    rewrite (scan_size_from max ls e1 ml) by lia.
    rewrite Hl1, Hs1, Hd1 in *.
    destruct (lines (scan max ls (e1, ml)).1) as [|d].
    + exfalso. destruct (max <? 0)%Z; lia.
    + cbn [take]. replace (S d - 1) with d by lia.
      unfold counted_bytes. simpl. lia.
Qed.

(** The scan writes the counters, the header and the Index Table only. *)
Lemma scan_session max ls e ml :
  is_open (scan max ls (e, ml)).1 = is_open e /\
  iterator_stream (scan max ls (e, ml)).1 = iterator_stream e /\
  reading_handle (scan max ls (e, ml)).1 = reading_handle e /\
  line_divisor (scan max ls (e, ml)).1 = line_divisor e /\
  is_indexed (scan max ls (e, ml)).1 = is_indexed e /\
  filename (scan max ls (e, ml)).1 = filename e.
Proof.
  revert e ml. induction ls as [|l ls IH]; intros e ml; simpl; [done|].
  destruct (lines e =? 0).
  - exact (IH (set_header (splitCSVLine l)
                 (set_counters (lines e + 1)
                    (size e + (String.length l + String.length (line_divisor e)))
                    e)) ml).
  - destruct ((0 <=? max)%Z && _); [done|].
    match goal with
    | |- context [scan max ls (?e', ?ml')] => exact (IH e' ml')
    end.
Qed.

(** On an open engine [buildIndex] returns: the engine is open and
    indexed, and has the counters, header and Index Table the scan left. *)
Lemma buildIndex_open w max m :
  well_formed m = true -> is_open (eng m) = true ->
  exists id m',
    iterator_stream (eng m) = Some id /\
    buildIndex w max m = Ok m' /\
    let e1 := (scan max (pending (streams m) id) (set_counters 0 0 (eng m), 0)).1 in
    lines (eng m') = lines e1 /\ size (eng m') = size e1 /\
    index_pool (eng m') = index_pool e1 /\ header (eng m') = header e1 /\
    columns (eng m') = columns e1 /\
    is_open (eng m') = true /\ is_indexed (eng m') = true.
Proof.
  intros Hw Ho. unfold well_formed in Hw. rewrite Ho in Hw.
  apply andb_prop in Hw as [Hfd Hst].
  destruct (iterator_stream (eng m)) as [id|] eqn:Hid; [|done].
  exists id. unfold buildIndex. rewrite Ho, Hid. simpl.
  pose proof (scan_session max (pending (streams m) id)
                (set_counters 0 0 (eng m)) 0) as Hs.
  destruct (scan max _ _) as [e1 ml] eqn:Hscan. simpl in Hs.
  destruct Hs as (Ho1 & Hid1 & Hfd1 & Hdiv1 & _).
  unfold close, open. simpl. rewrite Ho1, Ho, Hid1, Hid. simpl.
  eexists. split; [done|]. split; [reflexivity|]. simpl. done.
Qed.

(** ** Indexing a file from a new engine, for every file *)

(** For every file and cap, [buildIndex] on a newly opened engine returns.
    With [n] the number of lines of the file, header included: [lines] is
    [n], or with a cap [max >= 0] the smaller of [n] and [max] (of [n] and
    1 when [max] is 0); the Index Table has [lines - 1] entries, none
    empty, which tile a range of bytes ending at [size], so that their
    offsets increase strictly; [size] is the number of bytes of the first
    [lines] lines, each counted with a divisor of one byte. *)
Lemma indexed_shape w max :
  exists m,
    indexed w max = Ok m /\
    is_open (eng m) = true /\ is_indexed (eng m) = true /\
    well_formed m = true /\
    lines (eng m) =
      (if (max <? 0)%Z then length (readline_lines (file_bytes w))
       else Nat.min (length (readline_lines (file_bytes w)))
              (Nat.max 1 (Z.to_nat max))) /\
    length (index_pool (eng m)) = lines (eng m) - 1 /\
    (exists start, tiled start (index_pool (eng m)) (size (eng m))) /\
    (forall i j a b, i < j ->
       index_pool (eng m) !! i = Some a -> index_pool (eng m) !! j = Some b ->
       a.1 < b.1) /\
    size (eng m) =
      counted_bytes 1 (take (lines (eng m)) (readline_lines (file_bytes w))).
Proof.
  unfold indexed, new_CSVFileParser, open. simpl. run_bind.
  set (m0 := {| eng := set_session (Some 0) (Some (fresh_fd w)) true
                         (String LF "") (new_Engine "data.csv");
                streams := [{| rl_lines := readline_lines (file_bytes w);
                               rl_closed := false |}] |}).
  assert (well_formed m0 = true) as Hw0 by (vm_compute; reflexivity).
  destruct (buildIndex_open w max m0 Hw0 eq_refl)
    as (id & m & Hid' & Hb & Hl & Hs & Hpool & Hh & Hc & Ho' & Hi).
  injection Hid' as <-.
  change (pending (streams m0) 0) with (readline_lines (file_bytes w)) in *.
  pose proof (well_formed_buildIndex _ _ _ _ Hb) as (Hw & _).
  pose proof (scan_keeps_inv max (readline_lines (file_bytes w))
                (set_counters 0 0 (eng m0)) 0) as Hinv.
  pose proof (scan_lines max (readline_lines (file_bytes w))
                (set_counters 0 0 (eng m0)) 0 eq_refl) as Hlines.
  pose proof (scan_size max (readline_lines (file_bytes w))
                (set_counters 0 0 (eng m0)) 0 eq_refl eq_refl) as Hsize.
  rewrite <- Hl, <- Hs in Hsize.
  rewrite <- Hl in Hlines.
  destruct Hinv as [_ Hinv].
  { split; simpl; done. }
  rewrite <- Hl, <- Hpool, <- Hs in Hinv.
  exists m. rewrite Hb. split; [done|]. split_and!; try done.
  - destruct (lines (eng m)) as [|n]; [by rewrite Hinv|].
    destruct Hinv as [-> _]. lia.
  - destruct (lines (eng m)) as [|n]; [|by destruct Hinv].
    rewrite Hinv. exists (size (eng m)). done.
  - destruct (lines (eng m)) as [|n]; [by rewrite Hinv|].
    destruct Hinv as [_ [start Ht]]. intros i j a b.
    by apply (tiled_increasing start _ (size (eng m))).
Qed.

(** ** Row numbers and Index Table entries, for every file *)

(** On a newly indexed file [getLine] refuses the numbers outside
    [1, lines] with [RangeError]; of those inside, the last two have no
    entry and raise [TypeError]; each other one finds the entry at its own
    position of the table, which is that of the following data row. *)
Lemma indexed_lookup_entry w max m (z : Z) :
  indexed w max = Ok m ->
  lookup_entry (eng m) (VInt z) =
    if bool_decide (z <= 0 \/ Z.of_nat (lines (eng m)) < z)%Z then Err RangeError
    else if bool_decide (Z.of_nat (lines (eng m)) - 1 <= z)%Z then Err TypeError
    else match index_pool (eng m) !! Z.to_nat z with
         | Some entry => Ok entry
         | None => Err TypeError
         end.
Proof.
  intros Hm. destruct (indexed_shape w max)
    as (m' & Hm' & _ & _ & _ & _ & Hlen & [start Ht] & _).
  rewrite Hm in Hm'. injection Hm' as <-.
  unfold lookup_entry. case_bool_decide as Hr.
  - replace ((z =? 0)%Z || (Z.of_nat (lines (eng m)) <? z)%Z || (z <=? 0)%Z)
      with true; [done|]. symmetry. rewrite !orb_true_iff. lia.
  - replace ((z =? 0)%Z || (Z.of_nat (lines (eng m)) <? z)%Z || (z <=? 0)%Z)
      with false by (symmetry; rewrite !orb_false_iff; lia).
    case_bool_decide as Hlast.
    + rewrite (proj2 (lookup_ge_None _ _)); [done|]. lia.
    + destruct (index_pool (eng m) !! Z.to_nat z) as [[off len]|] eqn:He; [|done].
      destruct (tiled_bounds _ _ _ _ _ _ Ht He) as (_ & Hpos & _).
      by replace (len =? 0) with false by (symmetry; apply Nat.eqb_neq; lia).
Qed.


(** With the cap 0 on a file that has any line, [lines] is 1. *)
Lemma zero_cap_counts_header w :
  0 < length (readline_lines (file_bytes w)) ->
  exists m, indexed w 0 = Ok m /\ lines (eng m) = 1 /\ index_pool (eng m) = [].
Proof.
  intros Hn. destruct (indexed_shape w 0)
    as (m & Hm & _ & _ & _ & Hl & Hlen & _).
  exists m. split; [done|]. simpl in Hl.
  assert (lines (eng m) = 1) as Hl1 by lia.
  split; [done|]. rewrite Hl1 in Hlen.
  by destruct (index_pool (eng m)).
Qed.




(** * Further properties of the code *)

(** ** The row splitter *)

Lemma split_on_cons d s : exists c cs, split_on d s = c :: cs.
Proof.
  induction s as [|a s IH]; simpl; [eauto|].
  destruct (Ascii.eqb a d); [eauto|].
  destruct (split_on d s); eauto.
Qed.

Lemma join_split_on d s : join_on d (split_on d s) = s.
Proof.
  induction s as [|a s IH]; simpl; [done|].
  destruct (Ascii.eqb a d) eqn:Ha.
  - apply Ascii.eqb_eq in Ha as ->.
    destruct (split_on_cons d s) as (c & cs & Hs). rewrite Hs in *.
    simpl. by rewrite <- IH.
  - destruct (split_on_cons d s) as (c & cs & Hs). rewrite Hs in *.
    rewrite <- IH. by destruct cs.
Qed.

Lemma split_on_no_separator d s : Forall (fun c => occurs d c = false) (split_on d s).
Proof.
  induction s as [|a s IH]; simpl; [by repeat constructor|].
  destruct (Ascii.eqb a d) eqn:Ha; [by constructor|].
  destruct (split_on_cons d s) as (c & cs & Hs). rewrite Hs in *.
  inversion IH as [|? ? Hc Hcs]; subst. constructor; [|done].
  simpl. by rewrite Ha.
Qed.

Lemma split_on_single d c : occurs d c = false -> split_on d c = [c].
Proof.
  induction c as [|a c IH]; simpl; [done|].
  destruct (Ascii.eqb a d); [done|]. simpl. intros Hc. by rewrite IH.
Qed.

Lemma split_on_append d c s :
  occurs d c = false ->
  split_on d (String.append c (String d s)) = c :: split_on d s.
Proof.
  induction c as [|a c IH]; simpl.
  - intros _. by rewrite Ascii.eqb_refl.
  - destruct (Ascii.eqb a d); [done|]. simpl. intros Hc. by rewrite IH.
Qed.

Lemma split_join_on d cs :
  cs <> [] -> Forall (fun c => occurs d c = false) cs ->
  split_on d (join_on d cs) = cs.
Proof.
  induction cs as [|c cs IH]; [done|]. intros _ Hall.
  inversion Hall as [|? ? Hc Hcs]; subst.
  destruct cs as [|c' cs]; simpl.
  - by apply split_on_single.
  - rewrite split_on_append by done. f_equal. by apply IH.
Qed.

(** X1.  The splitter and [join(',')] are inverse to each other: joining
    the cells of a line gives the line back, for every line; a line always
    has at least one cell and no cell contains a comma; and splitting the
    join of a non-empty list of cells that contain no comma gives the
    cells back. *)
Theorem splitter_round_trip :
  (forall l,
     join_on "," (splitCSVLine l) = l /\
     splitCSVLine l <> [] /\
     Forall (fun c => occurs "," c = false) (splitCSVLine l)) /\
  (forall cs,
     cs <> [] -> Forall (fun c => occurs "," c = false) cs ->
     splitCSVLine (join_on "," cs) = cs).
Proof.
  split.
  - intros l. unfold splitCSVLine. split_and!.
    + apply join_split_on.
    + by destruct (split_on_cons "," l) as (c & cs & ->).
    + apply split_on_no_separator.
  - intros cs. apply split_join_on.
Qed.

Lemma splitter_round_trip_witness :
  splitCSVLine (join_on "," ["3"; ""; "5"]) = ["3"; ""; "5"].
Proof.
  apply (proj2 splitter_round_trip ["3"; ""; "5"]); [done|].
  repeat constructor.
Defined.

(** ** The fields of a record, for an ordinary header *)

Lemma drop_nulls_head cs :
  match drop_nulls cs with
  | None :: _ => False
  | _ => True
  end.
Proof. induction cs as [|[s|] cs IH]; simpl; done. Qed.

Lemma drop_nulls_snoc cs c :
  drop_nulls (cs ++ [c]) =
    match drop_nulls cs with
    | [] => drop_nulls [c]
    | x :: xs => ((x :: xs) ++ [c])%list
    end.
Proof. induction cs as [|[s|] cs IH]; simpl; done. Qed.

Lemma settled_nonempty cs :
  cs <> [] ->
  settled cs = Some (match drop_nulls cs with
                     | [] => FCell None
                     | [c] => FCell c
                     | xs => FSeq xs
                     end).
Proof. by destruct cs. Qed.

(** One more assignment to a name, seen on the cells assigned so far. *)
Lemma assign_field_settled o col c cs :
  col <> "__proto__" -> own o !! col = settled cs ->
  own (assign_field o col c) !! col = settled (cs ++ [c]).
Proof.
  intros Hp Hown. unfold assign_field. rewrite Hown.
  rewrite (settled_nonempty (cs ++ [c])) by (by destruct cs).
  destruct (decide (cs = [])) as [->|Hne].
  - simpl. unfold obj_set_cell. rewrite Hown. simpl.
    rewrite bool_decide_eq_false_2 by done. simpl.
    rewrite lookup_insert_eq. by destruct c.
  - rewrite settled_nonempty in * by done.
    rewrite drop_nulls_snoc.
    pose proof (drop_nulls_head cs) as Hh.
    destruct (drop_nulls cs) as [|[s|] [|z r]]; simpl in *; try done.
    + unfold obj_set_cell. rewrite Hown. simpl.
      rewrite lookup_insert_eq. by destruct c.
    + by rewrite lookup_insert_eq.
    + by rewrite lookup_insert_eq.
Qed.

Lemma assign_field_proto o col c :
  col <> "__proto__" -> proto_null (assign_field o col c) = proto_null o.
Proof.
  intros Hp. unfold assign_field, obj_set_cell.
  destruct (own o !! col) as [[[s|]|l]|]; simpl; try done.
  by rewrite bool_decide_eq_false_2.
Qed.

Lemma omap_seq_snoc {A} (f : nat -> option A) n :
  omap f (seq 0 (n + 1)) = (omap f (seq 0 n) ++ omap f [n])%list.
Proof. by rewrite seq_app, omap_app. Qed.

Lemma omap_seq_none {A} (f : nat -> option A) a n :
  (forall j, a <= j < a + n -> f j = None) -> omap f (seq a n) = [].
Proof.
  revert a. induction n as [|n IH]; intros a Hf; simpl; [done|].
  rewrite Hf by lia. apply IH. intros j Hj. apply Hf. lia.
Qed.

Lemma omap_seq_unique {A} (f : nat -> option A) n j y :
  j < n -> (forall k, k <> j -> f k = None) -> f j = Some y ->
  omap f (seq 0 n) = [y].
Proof.
  intros Hj Hnone Hy.
  replace (seq 0 n) with (seq 0 j ++ [j] ++ seq (j + 1) (n - j - 1))%list.
  - rewrite !omap_app. simpl. rewrite Hy.
    rewrite !omap_seq_none; [done|intros k Hk; apply Hnone; lia..].
  - change [j] with (seq j 1). rewrite <- !seq_app. f_equal. lia.
Qed.

(** The record of a line under an ordinary header: the prototype of
    [fields] is untouched, the bucket holds the cells past the header, and
    each other name holds what the cells at its positions settle to. *)
Lemma buildLineObject_ordinary (e : Engine) (l : string) (i : Z) (hdr : list string) :
  ordinary hdr ->
  exists r,
    buildLineObject (Some e) l i (HArr hdr) = Ok r /\
    proto_null (fields r) = false /\
    own (fields r) !! "_unnamed" =
      Some (FSeq (cell_at (splitCSVLine l) <$>
                  seq (length hdr) (length (splitCSVLine l) - length hdr))) /\
    forall col, col <> "_unnamed" ->
      own (fields r) !! col = settled (assigned hdr (splitCSVLine l) col).
Proof.
  intros (Hempty & Hun & Hproto).
  unfold buildLineObject. run_bind.
  set (cs := splitCSVLine l).
  set (f := fun col j => if bool_decide (hdr !! j = Some col)
                         then Some (cell_at cs j) else None).
  assert (forall n col' col, hdr !! n = Some col' ->
            omap (f col) [n] = if bool_decide (col' = col)
                               then [cell_at cs n] else []) as Hhit.
  { intros n col' col Hn. unfold f. simpl. rewrite Hn.
    repeat case_bool_decide; congruence. }
  assert (forall n col, hdr !! n = None -> omap (f col) [n] = []) as Hmiss.
  { intros n col Hn. unfold f. simpl. rewrite Hn.
    by rewrite bool_decide_eq_false_2. }
  assert (forall n col, n < length hdr -> hdr !! n = Some col ->
            col <> "" /\ col <> "_unnamed" /\ col <> "__proto__") as Hord.
  { intros n col _ Hn. apply list_elem_of_lookup_2 in Hn.
    split_and!; intros ->; done. }
  case_bool_decide as Hlen.
  - destruct (for_each_seq_inv (excess_step hdr cs)
      (fun n o => proto_null o = false /\
         own o !! "_unnamed" =
           Some (FSeq (cell_at cs <$> seq (length hdr) (n - length hdr))) /\
         forall col, col <> "_unnamed" ->
           own o !! col = settled (omap (f col) (seq 0 n)))
      (length cs) 0
      {| proto_null := false; own := {[ "_unnamed" := FSeq [] ]} |})
      as (o & Hrun & Hp & Hu & Hcols).
    + intros n o0 _ (Hp & Hu & Hcols). unfold excess_step.
      destruct (hdr !! n) as [col|] eqn:Hn.
      * pose proof (lookup_lt_Some _ _ _ Hn) as Hlt.
        destruct (Hord n col Hlt Hn) as (He & Hnu & Hnp).
        rewrite bool_decide_eq_false_2 by done.
        eexists. split; [done|]. split_and!.
        -- by rewrite assign_field_proto.
        -- rewrite assign_field_lookup_ne by done.
           replace (n + 1 - length hdr) with (n - length hdr) by lia. done.
        -- intros col' Hc'. rewrite omap_seq_snoc, (Hhit n col col' Hn).
           case_bool_decide as Heq.
           ++ subst col'. apply assign_field_settled; [done|]. by apply Hcols.
           ++ rewrite assign_field_lookup_ne, app_nil_r by done. by apply Hcols.
      * apply lookup_ge_None in Hn.
        unfold push_unnamed. rewrite Hu. eexists. split; [done|]. simpl.
        split_and!; [done|..].
        -- rewrite lookup_insert_eq. do 2 f_equal.
           replace (n + 1 - length hdr) with ((n - length hdr) + 1) by lia.
           rewrite seq_app, fmap_app. simpl.
           by replace (length hdr + (n - length hdr)) with n by lia.
        -- intros col' Hc'. rewrite lookup_insert_ne by done.
           rewrite omap_seq_snoc, Hmiss, app_nil_r; [by apply Hcols|].
           by apply lookup_ge_None.
    + simpl. split_and!; [done|..].
      * rewrite lookup_singleton_eq. done.
      * intros col Hc. by rewrite lookup_singleton_ne.
    + rewrite Hrun. simpl. eexists. split; [done|]. simpl.
      split_and!; [done|done|]. intros col Hc. rewrite Hcols by done.
      unfold assigned. fold cs. fold (f col).
      change (0 + length cs) with (length cs).
      replace (seq 0 (length cs))
        with (seq 0 (length hdr) ++ seq (length hdr) (length cs - length hdr))%list
        by (rewrite <- seq_app; f_equal; lia).
      rewrite omap_app.
      rewrite (omap_seq_none (f col) (length hdr)); [by rewrite app_nil_r|].
      intros j [Hj _]. unfold f.
      rewrite (proj2 (lookup_ge_None hdr j)) by lia.
      by rewrite bool_decide_eq_false_2.
  - destruct (for_each_seq_inv (plain_step hdr cs)
      (fun n o => proto_null o = false /\
         own o !! "_unnamed" = Some (FSeq []) /\
         forall col, col <> "_unnamed" ->
           own o !! col = settled (omap (f col) (seq 0 n)))
      (length hdr) 0
      {| proto_null := false; own := {[ "_unnamed" := FSeq [] ]} |})
      as (o & Hrun & Hp & Hu & Hcols).
    + intros n o0 Hn0 (Hp & Hu & Hcols). unfold plain_step.
      destruct (lookup_lt_is_Some_2 hdr n) as [col Hn]; [lia|].
      rewrite Hn. simpl.
      destruct (Hord n col ltac:(lia) Hn) as (He & Hnu & Hnp).
      eexists. split; [done|]. split_and!.
      * by rewrite assign_field_proto.
      * by rewrite assign_field_lookup_ne.
      * intros col' Hc'. rewrite omap_seq_snoc, (Hhit n col col' Hn).
        case_bool_decide as Heq.
        -- subst col'. apply assign_field_settled; [done|]. by apply Hcols.
        -- rewrite assign_field_lookup_ne, app_nil_r by done. by apply Hcols.
    + simpl. split_and!; [done|..].
      * rewrite lookup_singleton_eq. done.
      * intros col Hc. by rewrite lookup_singleton_ne.
    + rewrite Hrun. simpl. eexists. split; [done|]. simpl.
      split_and!; [done|..].
      * replace (length cs - length hdr) with 0 by lia. done.
      * intros col Hc. by rewrite Hcols.
Qed.

Lemma assigned_absent hdr cs col : col ∉ hdr -> assigned hdr cs col = [].
Proof.
  intros Hnot. unfold assigned. apply omap_seq_none. intros j _.
  rewrite bool_decide_eq_false_2; [done|].
  intros Hj. apply Hnot. by eapply list_elem_of_lookup_2.
Qed.

Lemma assigned_once hdr cs col j :
  NoDup hdr -> hdr !! j = Some col -> assigned hdr cs col = [cell_at cs j].
Proof.
  intros Hnd Hj. unfold assigned.
  apply (omap_seq_unique _ _ j).
  - by eapply lookup_lt_Some.
  - intros k Hk. rewrite bool_decide_eq_false_2; [done|].
    intros Hk'. apply Hk. by eapply NoDup_lookup.
  - by rewrite bool_decide_eq_true_2.
Qed.

(** X2.  Under a header of ordinary names (none empty, none [_unnamed] or
    [__proto__]) the decoder returns a record whose [fields] has exactly
    these own properties: the bucket [_unnamed], holding the cells past
    the header width in order (empty cells as [null]); and each column
    name, holding what the cells at its positions settle to: with the
    leading empty cells dropped, [null] if nothing is left, the string if
    one is left, else the array of what is left.  No other key exists. *)
Theorem fields_of_ordinary_header (e : Engine) (l : string) (i : Z)
    (h : header_arg) (hdr : list string) :
  effective_header e h = Some hdr -> ordinary hdr ->
  exists r,
    buildLineObject (Some e) l i h = Ok r /\
    own (fields r) !! "_unnamed" =
      Some (FSeq (cell_at (cells r) <$>
                  seq (length hdr) (length (cells r) - length hdr))) /\
    (forall col, col <> "_unnamed" ->
       own (fields r) !! col = settled (assigned hdr (cells r) col)) /\
    (forall col, col <> "_unnamed" -> col ∉ hdr -> own (fields r) !! col = None).
Proof.
  intros He Hord. rewrite (buildLineObject_effective _ _ _ _ _ He).
  destruct (buildLineObject_ordinary e l i hdr Hord) as (r & Hr & _ & Hu & Hcols).
  exists r. split; [done|].
  apply buildLineObject_Ok_inv in Hr as (_ & _ & -> & _).
  split_and!; [done..|].
  intros col Hc Hnot. rewrite Hcols by done. by rewrite assigned_absent.
Qed.

Lemma fields_of_ordinary_header_witness :
  exists r,
    buildLineObject (Some (engine_with_header ["a"; "b"; "a"; "a"]))
      ",x,1,,2" 7 HNull = Ok r /\
    own (fields r) !! "_unnamed" =
      Some (FSeq (cell_at (cells r) <$> seq 4 (length (cells r) - 4))) /\
    (forall col, col <> "_unnamed" ->
       own (fields r) !! col =
         settled (assigned ["a"; "b"; "a"; "a"] (cells r) col)) /\
    (forall col, col <> "_unnamed" -> col ∉ ["a"; "b"; "a"; "a"] ->
       own (fields r) !! col = None).
Proof.
  apply (fields_of_ordinary_header
           (engine_with_header ["a"; "b"; "a"; "a"]) ",x,1,,2" 7 HNull
           ["a"; "b"; "a"; "a"]).
  - reflexivity.
  - split_and!; intros H; repeat (apply elem_of_cons in H as [H|H]; [done|]);
      by apply elem_of_nil in H.
Defined.

(** X3.  Under a header of ordinary and distinct names, each field is the
    cell at the position of its column, an empty or missing cell being
    [null]; [fields] has no key beside the column names and the bucket,
    which holds the cells past the header width. *)
Theorem fields_are_positional (e : Engine) (l : string) (i : Z)
    (h : header_arg) (hdr : list string) :
  effective_header e h = Some hdr -> ordinary hdr -> NoDup hdr ->
  exists r,
    buildLineObject (Some e) l i h = Ok r /\
    (forall j col, hdr !! j = Some col ->
       own (fields r) !! col = Some (FCell (cell_at (splitCSVLine l) j))) /\
    unnamed (fields r) =
      Some (cell_at (splitCSVLine l) <$>
            seq (length hdr) (length (splitCSVLine l) - length hdr)) /\
    (forall col, is_Some (own (fields r) !! col) <->
       col = "_unnamed" \/ col ∈ hdr).
Proof.
  intros He Hord Hnd. rewrite (buildLineObject_effective _ _ _ _ _ He).
  destruct (buildLineObject_ordinary e l i hdr Hord) as (r & Hr & _ & Hu & Hcols).
  exists r. split; [done|].
  assert (forall j col, hdr !! j = Some col ->
            own (fields r) !! col = Some (FCell (cell_at (splitCSVLine l) j)))
    as Hpos.
  { intros j col Hj.
    assert (col <> "_unnamed") as Hc.
    { intros ->. destruct Hord as (_ & Hun & _). apply Hun.
      by eapply list_elem_of_lookup_2. }
    rewrite Hcols, (assigned_once _ _ _ j) by done. simpl.
    by destruct (cell_at (splitCSVLine l) j). }
  split_and!; [done| |].
  - apply unnamed_Some. done.
  - intros col. split.
    + intros Hsome. destruct (decide (col = "_unnamed")) as [|Hc]; [by left|].
      right. destruct (decide (col ∈ hdr)) as [|Hnot]; [done|].
      rewrite Hcols, assigned_absent in Hsome by done.
      by destruct Hsome.
    + intros [->|Hin]; [by rewrite Hu|].
      apply list_elem_of_lookup in Hin as [j Hj]. by rewrite (Hpos j col Hj).
Qed.

Lemma fields_are_positional_witness :
  exists r,
    buildLineObject (Some (engine_with_header ["a"; "b"])) "6" 3 HNull = Ok r /\
    (forall j col, ["a"; "b"] !! j = Some col ->
       own (fields r) !! col = Some (FCell (cell_at (splitCSVLine "6") j))) /\
    unnamed (fields r) =
      Some (cell_at (splitCSVLine "6") <$>
            seq (length ["a"; "b"]) (length (splitCSVLine "6") - length ["a"; "b"])) /\
    (forall col, is_Some (own (fields r) !! col) <->
       col = "_unnamed" \/ col ∈ ["a"; "b"]).
Proof.
  apply (fields_are_positional
           (engine_with_header ["a"; "b"]) "6" 3 HNull ["a"; "b"]).
  - reflexivity.
  - split_and!; intros H; repeat (apply elem_of_cons in H as [H|H]; [done|]);
      by apply elem_of_nil in H.
  - repeat constructor; intros H;
      repeat (apply elem_of_cons in H as [H|H]; [done|]);
      by apply elem_of_nil in H.
Defined.

(** ** What the scan of [buildIndex] computes *)

(** From the second line on, the scan appends the entries of the lines it
    takes, raises [maxLength] to the longest of them, and leaves the
    header alone. *)
Lemma scan_rows_from max ls e ml :
  0 < lines e ->
  index_pool (scan max ls (e, ml)).1 =
    (index_pool e ++
     entries (String.length (line_divisor e)) (size e)
       (take (lines (scan max ls (e, ml)).1 - lines e) ls))%list /\
  (scan max ls (e, ml)).2 =
    Nat.max ml (longest (take (lines (scan max ls (e, ml)).1 - lines e) ls)) /\
  header (scan max ls (e, ml)).1 = header e /\
  columns (scan max ls (e, ml)).1 = columns e.
Proof.
  revert e ml. induction ls as [|l ls IH]; intros e ml Hpos.
  - simpl. rewrite take_nil, app_nil_r. unfold longest. simpl.
    split_and!; [done|lia|done..].
  - pose proof (scan_lines_from max (l :: ls) e ml Hpos) as Hl.
    simpl in Hl |- *.
    destruct (lines e =? 0) eqn:H0; [apply Nat.eqb_eq in H0; lia|].
    destruct ((0 <=? max)%Z && (max <=? Z.of_nat (lines e))%Z) eqn:Hc.
    + simpl. rewrite Nat.sub_diag. simpl. rewrite app_nil_r.
      unfold longest. simpl. split_and!; [done|lia|done..].
    + match goal with
      | |- context [scan max ls (?e', ?ml')] =>
          destruct (IH e' ml' ltac:(simpl; lia)) as (Hp & Hm & Hh & Hcol);
          pose proof (scan_lines_from max ls e' ml' ltac:(simpl; lia)) as Hl';
          rewrite Hp, Hm, Hh, Hcol;
          destruct (lines (scan max ls (e', ml')).1 - lines e) as [|d] eqn:Hd
      end.
      * exfalso. simpl in Hl'. destruct (max <? 0)%Z; lia.
      * simpl lines at 2 3. simpl index_pool. simpl size. simpl line_divisor.
        simpl header. simpl columns.
        replace (lines _ - (lines e + 1)) with d by lia.
        cbn [take entries]. rewrite <- app_assoc. simpl.
        split_and!; [done| |done..].
        unfold longest. cbn [map foldr].
        destruct (ml <=? String.length l) eqn:Hle;
          [apply Nat.leb_le in Hle|apply Nat.leb_gt in Hle]; lia.
Qed.

Lemma scan_rows max ls e ml :
  lines e = 0 -> size e = 0 ->
  match ls with
  | [] => scan max ls (e, ml) = (e, ml)
  | l0 :: rows =>
      let n := lines (scan max ls (e, ml)).1 in
      let d := String.length (line_divisor e) in
      index_pool (scan max ls (e, ml)).1 =
        (index_pool e ++ entries d (String.length l0 + d) (take (n - 1) rows))%list /\
      (scan max ls (e, ml)).2 = Nat.max ml (longest (take (n - 1) rows)) /\
      header (scan max ls (e, ml)).1 = Some (splitCSVLine l0) /\
      columns (scan max ls (e, ml)).1 = length (splitCSVLine l0)
  end.
Proof.
  intros H0 Hs. destruct ls as [|l0 rows]; [done|].
  cbn [scan]. rewrite H0. cbn [Nat.eqb].
  set (e1 := set_header (splitCSVLine l0) _).
  destruct (scan_rows_from max rows e1 ml) as (Hp & Hm & Hh & Hc); [simpl; lia|].
  replace (lines e1) with 1 in * by (simpl; lia).
  replace (size e1) with (String.length l0 + String.length (line_divisor e))
    in * by (simpl; lia).
  done.
Qed.

(** [buildIndex] on an open engine sizes the read buffer to the [maxLength]
    of its scan. *)
Lemma buildIndex_buffer w max m m' id :
  iterator_stream (eng m) = Some id ->
  buildIndex w max m = Ok m' ->
  reading_buffer (eng m') =
    Some (Buffer_alloc
            (scan max (pending (streams m) id) (set_counters 0 0 (eng m), 0)).2).
Proof.
  intros Hid. unfold buildIndex. rewrite Hid.
  destruct (negb (is_open (eng m))); [done|].
  destruct (scan max _ _) as [e1 ml] eqn:Hscan. run_bind.
  unfold close, open. simpl.
  destruct (negb (is_open e1)); [done|]. simpl.
  destruct (iterator_stream e1); [|done]. simpl. by intros [= <-].
Qed.

(** What [buildIndex] leaves on a newly opened engine, for every file and
    cap, in terms of the lines of the file. *)
Lemma indexed_contents w max :
  exists m,
    indexed w max = Ok m /\
    match readline_lines (file_bytes w) with
    | [] =>
        header (eng m) = None /\ columns (eng m) = 0 /\ lines (eng m) = 0 /\
        size (eng m) = 0 /\ index_pool (eng m) = [] /\
        reading_buffer (eng m) = Some ""
    | l0 :: rows =>
        let n := lines (eng m) in
        header (eng m) = Some (splitCSVLine l0) /\
        columns (eng m) = length (splitCSVLine l0) /\
        1 <= n <= S (length rows) /\
        index_pool (eng m) = entries 1 (String.length l0 + 1) (take (n - 1) rows) /\
        reading_buffer (eng m) = Some (Buffer_alloc (longest (take (n - 1) rows)))
    end.
Proof.
  destruct (indexed_shape w max) as (m & Hm & _ & _ & _ & Hlines & _).
  exists m. split; [done|].
  revert Hm. unfold indexed, new_CSVFileParser, open. simpl. run_bind.
  set (m0 := {| eng := set_session (Some 0) (Some (fresh_fd w)) true
                         (String LF "") (new_Engine "data.csv");
                streams := [{| rl_lines := readline_lines (file_bytes w);
                               rl_closed := false |}] |}).
  intros Hb.
  pose proof (buildIndex_buffer w max m0 m 0 eq_refl Hb) as Hbuf.
  destruct (buildIndex_open w max m0 ltac:(vm_compute; reflexivity) eq_refl)
    as (id & m' & Hid & Hb' & Hl & Hs & Hp & Hh & Hc & _).
  injection Hid as <-. rewrite Hb in Hb'. injection Hb' as <-.
  change (pending (streams m0) 0) with (readline_lines (file_bytes w)) in *.
  pose proof (scan_rows max (readline_lines (file_bytes w))
                (set_counters 0 0 (eng m0)) 0 eq_refl eq_refl) as Hrows.
  destruct (readline_lines (file_bytes w)) as [|l0 rows].
  - rewrite Hrows in *. simpl in *. by rewrite Hbuf.
  - destruct Hrows as (Hp' & Hm' & Hh' & Hc').
    rewrite <- Hl in Hp', Hm'.
    rewrite Hp, Hh, Hc, Hbuf, Hp', Hm', Hh', Hc'.
    cbn [length] in Hlines.
    split_and!; [done..| | |done|done]; destruct (max <? 0)%Z; lia.
Qed.

(** ** Files whose lines end in a line feed *)

Lemma segments_unbroken l rest :
  unbroken l ->
  segments (String.append l (String LF rest)) = l :: segments rest.
Proof.
  intros [Hlf Hcr]. induction l as [|c l IH]; simpl in *; [done|].
  apply orb_false_iff in Hlf as [Hc1 Hlf]. apply orb_false_iff in Hcr as [Hc2 Hcr].
  rewrite Hc1, Hc2. by rewrite IH.
Qed.

Lemma segments_text_file ls :
  Forall unbroken ls ->
  segments (text_file (String LF "") ls) = (ls ++ [""])%list.
Proof.
  induction 1 as [|l ls Hl _ IH]; [done|].
  change (text_file (String LF "") (l :: ls))
    with (String.append l (String LF (text_file (String LF "") ls))).
  by rewrite segments_unbroken, IH.
Qed.

(** The line reader gives back the lines the file was made of. *)
Lemma readline_text_file ls :
  Forall unbroken ls -> readline_lines (text_file (String LF "") ls) = ls.
Proof.
  intros Hls. unfold readline_lines. rewrite segments_text_file by done.
  rewrite last_snoc. apply removelast_last.
Qed.

Lemma length_text_file d ls :
  String.length (text_file d ls) = counted_bytes (String.length d) ls.
Proof.
  unfold counted_bytes. induction ls as [|l ls IH]; simpl; [done|].
  rewrite !length_append_str, IH. lia.
Qed.

Lemma substring_skip (a b : string) (n m : nat) :
  substring (String.length a + n) m (String.append a b) = substring n m b.
Proof. induction a as [|c a IH]; simpl; done. Qed.

Lemma append_assoc_str (a b c : string) :
  String.append (String.append a b) c = String.append a (String.append b c).
Proof.
  induction a as [|x a IH]; [done|].
  change (String x (String.append (String.append a b) c) =
          String x (String.append a (String.append b c))).
  by f_equal.
Qed.

(** The bytes of a line and its divisor, cut out of the file. *)
Lemma substring_text_file d before l after :
  substring (counted_bytes (String.length d) before)
    (String.length l + String.length d)
    (text_file d (before ++ l :: after)) = String.append l d.
Proof.
  induction before as [|b before IH].
  - change (text_file d ([] ++ l :: after))
      with (String.append l (String.append d (text_file d after))).
    rewrite <- append_assoc_str, <- length_append_str.
    change (counted_bytes (String.length d) []) with 0.
    rewrite substring_append_front by lia. apply substring_whole.
  - change (text_file d ((b :: before) ++ l :: after))
      with (String.append b
              (String.append d (text_file d (before ++ l :: after)))).
    rewrite <- append_assoc_str.
    replace (counted_bytes (String.length d) (b :: before))
      with (String.length (String.append b d) +
            counted_bytes (String.length d) before)
      by (rewrite length_append_str; unfold counted_bytes; simpl; lia).
    rewrite substring_skip. apply IH.
Qed.

Lemma entries_lookup d from ls j l :
  ls !! j = Some l ->
  entries d from ls !! j =
    Some (from + counted_bytes d (take j ls), String.length l + d).
Proof.
  unfold counted_bytes. revert from j.
  induction ls as [|x ls IH]; intros from [|j]; simpl; try done.
  - intros [= ->]. do 2 f_equal. lia.
  - intros Hj. rewrite (IH _ _ Hj). do 2 f_equal. lia.
Qed.

Lemma entries_length d from ls : length (entries d from ls) = length ls.
Proof. revert from. induction ls as [|x ls IH]; intros from; simpl; [done|]. by rewrite IH. Qed.

Lemma trim_end_line_feed s : trim_end (String.append s (String LF "")) = trim_end s.
Proof.
  induction s as [|c s IH]; [done|].
  change (String.append (String c s) (String LF ""))
    with (String c (String.append s (String LF ""))).
  cbn [trim_end]. by rewrite IH.
Qed.

Lemma trim_line_feed s : trim (String.append s (String LF "")) = trim s.
Proof.
  unfold trim. induction s as [|c s IH]; [done|].
  change (String.append (String c s) (String LF ""))
    with (String c (String.append s (String LF ""))).
  cbn [trim_start]. destruct (is_space c); [done|].
  apply (trim_end_line_feed (String c s)).
Qed.

(** Where the entry of a data row lies, in a file of line-fed lines read
    without a cap. *)
Lemma indexed_text_file w ls :
  file_bytes w = text_file (String LF "") ls -> Forall unbroken ls ->
  exists m,
    indexed w (-1) = Ok m /\
    is_open (eng m) = true /\ is_indexed (eng m) = true /\
    is_Some (reading_handle (eng m)) /\
    lines (eng m) = length ls /\
    size (eng m) = String.length (file_bytes w) /\
    header (eng m) = splitCSVLine <$> head ls /\
    reading_buffer (eng m) = Some (Buffer_alloc (longest (tail ls))) /\
    length (index_pool (eng m)) = length ls - 1 /\
    forall j row, ls !! (j + 1) = Some row ->
      exists off,
        index_pool (eng m) !! j = Some (off, String.length row + 1) /\
        substring off (String.length row + 1) (file_bytes w) =
          String.append row (String LF "").
Proof.
  intros Hfile Hls.
  destruct (indexed_shape w (-1))
    as (m & Hm & Ho & Hi & Hw & Hlines & Hlen & _ & _ & Hsize).
  destruct (indexed_contents w (-1)) as (m' & Hm' & Hcont).
  rewrite Hm in Hm'. injection Hm' as <-.
  rewrite Hfile, readline_text_file in * by done. simpl in Hlines.
  exists m. split; [done|].
  assert (is_Some (reading_handle (eng m))) as Hfd.
  { unfold well_formed in Hw. rewrite Ho in Hw.
    apply andb_prop in Hw as [Hw _]. by apply bool_decide_eq_true in Hw. }
  split_and!; try done.
  - rewrite Hsize, Hlines, firstn_all. by rewrite length_text_file.
  - destruct ls as [|l0 rows]; simpl; [by destruct Hcont|].
    by destruct Hcont as (-> & _).
  - destruct ls as [|l0 rows]; simpl.
    + by destruct Hcont as (_ & _ & _ & _ & _ & ->).
    + destruct Hcont as (_ & _ & _ & _ & ->). rewrite Hlines. simpl.
      by rewrite Nat.sub_0_r, firstn_all.
  - lia.
  - intros j row Hj. destruct ls as [|l0 rows]; [done|].
    destruct Hcont as (_ & _ & _ & -> & _). rewrite Hlines. simpl.
    rewrite Nat.sub_0_r, firstn_all.
    replace (j + 1) with (S j) in Hj by lia. simpl in Hj.
    rewrite (entries_lookup _ _ _ _ _ Hj). eexists. split; [done|].
    rewrite <- (take_drop_middle rows j row Hj) at 2.
    change (l0 :: take j rows ++ row :: drop (S j) rows)%list
      with ((l0 :: take j rows) ++ row :: drop (S j) rows)%list.
    rewrite <- (substring_text_file (String LF "") (l0 :: take j rows) row
                  (drop (S j) rows)).
    f_equal; unfold counted_bytes; simpl; lia.
Qed.

(** [getLine] on a file of line-fed lines read without a cap: the row
    number [i] finds the entry of the data row [i + 1]; [fs.read] takes it
    when it fits the buffer, and the decoder gets the trimmed row. *)
Lemma getLine_text_file w ls (i : nat) row :
  file_bytes w = text_file (String LF "") ls -> Forall unbroken ls ->
  1 <= i -> ls !! (i + 1) = Some row ->
  exists m,
    indexed w (-1) = Ok m /\
    (getLine w (VInt (Z.of_nat i)) m).1 =
      if longest (tail ls) =? 0 then Err FsEmptyBuffer
      else if longest (tail ls) <? String.length row + 1 then Err FsOutOfRange
      else buildLineObject (Some (eng m)) (trim row) (Z.of_nat i) HNull.
Proof.
  intros Hfile Hls Hi Hrow.
  destruct (indexed_text_file w ls Hfile Hls)
    as (m & Hm & Ho & Hx & [fd Hfd] & Hlines & _ & _ & Hbuf & Hlen & Hent).
  destruct (Hent i row Hrow) as (off & Hoff & Hsub).
  pose proof (lookup_lt_Some _ _ _ Hrow) as Hlt.
  exists m. split; [done|]. unfold getLine.
  rewrite (indexed_lookup_entry w (-1) m _ Hm), Ho, Hx, Hlen, Hlines.
  replace (length ls - 1 =? 0) with false by (symmetry; apply Nat.eqb_neq; lia).
  rewrite bool_decide_eq_false_2 by lia.
  rewrite bool_decide_eq_false_2 by lia.
  rewrite Nat2Z.id, Hoff. cbn [negb orb].
  unfold readAtIndex, fs_read. rewrite Hbuf, Hfd. cbn [default]. unfold id.
  rewrite !length_Buffer_alloc.
  replace (String.length row + 1 =? 0) with false
    by (symmetry; apply Nat.eqb_neq; lia).
  destruct (longest (tail ls) =? 0); [done|].
  destruct (longest (tail ls) <? String.length row + 1) eqn:Hfit; [done|].
  apply Nat.ltb_ge in Hfit. rewrite Hsub. run_bind.
  rewrite substring_append_front
    by (rewrite length_append_str; simpl; lia).
  replace (String.length row + 1)
    with (String.length (String.append row (String LF "")))
    by (rewrite length_append_str; simpl; lia).
  rewrite substring_whole, trim_line_feed.
  by apply buildLineObject_header.
Qed.

(** X4.  For a file of single-byte (ASCII) text made of lines that each
    end in a line feed, [buildIndex()] on a newly opened engine returns
    with [lines] the number of lines of the file (the header line
    included), [size] the size of the file in bytes, and one Index Table
    entry per data row: the entry at position [j] of the table (from 0) is
    the offset and the length of the data row [j + 1] together with its
    line feed. *)
Theorem index_locates_rows (w : World) (ls : list string) :
  ascii_text (file_bytes w) = true ->
  file_bytes w = text_file (String LF "") ls -> Forall unbroken ls ->
  exists m,
    indexed w (-1) = Ok m /\
    get_lines m = Ok (length ls) /\
    get_size m = Ok (String.length (file_bytes w)) /\
    length (index_pool (eng m)) = length ls - 1 /\
    forall j row, ls !! (j + 1) = Some row ->
      exists off,
        index_pool (eng m) !! j = Some (off, String.length row + 1) /\
        substring off (String.length row + 1) (file_bytes w) =
          String.append row (String LF "").
Proof.
  intros _ Hfile Hls.
  destruct (indexed_text_file w ls Hfile Hls)
    as (m & Hm & _ & Hx & _ & Hlines & Hsize & _ & _ & Hlen & Hent).
  exists m. unfold get_lines, get_size, get_isIndexed.
  rewrite Hx, Hlines, Hsize. by split_and!.
Qed.

Lemma index_locates_rows_witness :
  exists m,
    indexed sample_lf (-1) = Ok m /\
    get_lines m = Ok (length ["a,b"; "1,2"; "3,4,5"; "6"]) /\
    get_size m = Ok (String.length (file_bytes sample_lf)) /\
    length (index_pool (eng m)) = length ["a,b"; "1,2"; "3,4,5"; "6"] - 1 /\
    forall j row, ["a,b"; "1,2"; "3,4,5"; "6"] !! (j + 1) = Some row ->
      exists off,
        index_pool (eng m) !! j = Some (off, String.length row + 1) /\
        substring off (String.length row + 1) (file_bytes sample_lf) =
          String.append row (String LF "").
Proof.
  apply (index_locates_rows sample_lf ["a,b"; "1,2"; "3,4,5"; "6"]).
  - vm_compute. reflexivity.
  - reflexivity.
  - repeat constructor.
Defined.

(** X5.  For such a file (single-byte text, each line ended by a line
    feed), [getLine(i)] with [i >= 1] on the newly indexed
    engine returns, whenever the data row [i + 1] exists and is shorter
    than the longest data row, the record the decoder makes of that row,
    trimmed, under the header of the file, with [index] equal to [i]: the
    row returned is the one after the row numbered [i]. *)
Theorem getLine_returns_following_row (w : World) (ls : list string)
    (i : nat) (l0 row : string) :
  ascii_text (file_bytes w) = true ->
  file_bytes w = text_file (String LF "") ls -> Forall unbroken ls ->
  head ls = Some l0 -> 1 <= i -> ls !! (i + 1) = Some row ->
  String.length row < longest (tail ls) ->
  exists m r,
    indexed w (-1) = Ok m /\
    (getLine w (VInt (Z.of_nat i)) m).1 = Ok r /\
    buildLineObject (Some (eng m)) (trim row) (Z.of_nat i)
      (HArr (splitCSVLine l0)) = Ok r /\
    index r = Z.of_nat i /\ line r = Some (trim row).
Proof.
  intros _ Hfile Hls Hhead Hi Hrow Hshort.
  destruct (getLine_text_file w ls i row Hfile Hls Hi Hrow) as (m & Hm & Hget).
  destruct (indexed_text_file w ls Hfile Hls)
    as (m' & Hm' & _ & _ & _ & _ & _ & Hh & _).
  rewrite Hm in Hm'. injection Hm' as <-. rewrite Hhead in Hh. simpl in Hh.
  replace (longest (tail ls) =? 0) with false in Hget
    by (symmetry; apply Nat.eqb_neq; lia).
  replace (longest (tail ls) <? String.length row + 1) with false in Hget
    by (symmetry; apply Nat.ltb_ge; lia).
  rewrite (buildLineObject_effective (eng m) _ _ HNull (splitCSVLine l0) Hh)
    in Hget.
  destruct (buildLineObject_bound (eng m) (trim row) (Z.of_nat i) (splitCSVLine l0))
    as (o & Hr & _).
  eexists m, _. split; [done|]. rewrite Hget. by split_and!.
Qed.

Lemma getLine_returns_following_row_witness :
  exists m r,
    indexed sample_lf (-1) = Ok m /\
    (getLine sample_lf (VInt (Z.of_nat 2)) m).1 = Ok r /\
    buildLineObject (Some (eng m)) (trim "6") (Z.of_nat 2)
      (HArr (splitCSVLine "a,b")) = Ok r /\
    index r = Z.of_nat 2 /\ line r = Some (trim "6").
Proof.
  apply (getLine_returns_following_row sample_lf
           ["a,b"; "1,2"; "3,4,5"; "6"] 2 "a,b" "6").
  - vm_compute. reflexivity.
  - reflexivity.
  - repeat constructor.
  - reflexivity.
  - lia.
  - reflexivity.
  - vm_compute. lia.
Defined.

(** X6.  [buildIndex] sizes the read buffer to the longest data row
    without its line feed, and [getLine] asks [fs.read] for the row with
    its line feed: for such a file (single-byte text, each line ended by
    a line feed), [getLine(i)] fails whenever the data
    row [i + 1] is a longest one, with the range error of [fs.read] (the
    length exceeds the buffer), or with its empty-buffer error when that
    row is empty. *)
Theorem getLine_longest_row_fails (w : World) (ls : list string)
    (i : nat) (row : string) :
  ascii_text (file_bytes w) = true ->
  file_bytes w = text_file (String LF "") ls -> Forall unbroken ls ->
  1 <= i -> ls !! (i + 1) = Some row ->
  String.length row = longest (tail ls) ->
  exists m,
    indexed w (-1) = Ok m /\
    reading_buffer (eng m) = Some (Buffer_alloc (String.length row)) /\
    index_pool (eng m) !! i <> None /\
    (getLine w (VInt (Z.of_nat i)) m).1 =
      Err (if String.length row =? 0 then FsEmptyBuffer else FsOutOfRange).
Proof.
  intros _ Hfile Hls Hi Hrow Hlong.
  destruct (getLine_text_file w ls i row Hfile Hls Hi Hrow) as (m & Hm & Hget).
  destruct (indexed_text_file w ls Hfile Hls)
    as (m' & Hm' & _ & _ & _ & _ & _ & _ & Hbuf & _ & Hent).
  rewrite Hm in Hm'. injection Hm' as <-.
  destruct (Hent i row Hrow) as (off & Hoff & _).
  exists m. rewrite Hbuf, Hoff, Hget, <- Hlong. split_and!; [done..|].
  destruct (String.length row =? 0); [done|].
  by replace (String.length row <? String.length row + 1) with true
    by (symmetry; apply Nat.ltb_lt; lia).
Qed.

Lemma getLine_longest_row_fails_witness :
  exists m,
    indexed sample_lf (-1) = Ok m /\
    reading_buffer (eng m) = Some (Buffer_alloc (String.length "3,4,5")) /\
    index_pool (eng m) !! 1 <> None /\
    (getLine sample_lf (VInt (Z.of_nat 1)) m).1 =
      Err (if String.length "3,4,5" =? 0 then FsEmptyBuffer else FsOutOfRange).
Proof.
  apply (getLine_longest_row_fails sample_lf
           ["a,b"; "1,2"; "3,4,5"; "6"] 1 "3,4,5").
  - vm_compute. reflexivity.
  - reflexivity.
  - repeat constructor.
  - lia.
  - reflexivity.
  - reflexivity.
Defined.

(** ** The life cycle *)

(** X7.  [open] and [close] alternate.  After an [open()] that returned, a
    second [open()] fails with the state error "already open" and
    [close()] returns, with or without [preserveFileHandle].  After a
    [close()] that returned, [close], [rewind], [buildIndex], [iterator]
    and [getLine] all fail with the state error "not open", the engine
    staying as it is, and [open()] returns; without [preserveFileHandle]
    the descriptor is released and the next [open()] takes a new one. *)
Theorem open_and_close_alternate (w : World) (m m' : Machine) :
  (open w m = Ok m' ->
     open w m' = Err (StateError AlreadyOpen) /\
     forall p, exists m'', close p m' = Ok m'') /\
  (forall p, close p m = Ok m' ->
     (forall p', close p' m' = Err (StateError NotOpen)) /\
     rewind w m' = Err (StateError NotOpen) /\
     (forall max, buildIndex w max m' = Err (StateError NotOpen)) /\
     iterator m' = Err (StateError NotOpen) /\
     (forall v, getLine w v m' = (Err (StateError NotOpen), m')) /\
     (p = false -> reading_handle (eng m') = None) /\
     exists m'', open w m' = Ok m'' /\
       (p = false -> reading_handle (eng m'') = Some (fresh_fd w)) /\
       (p = true -> reading_handle (eng m'') =
                      Some (default (fresh_fd w) (reading_handle (eng m))))).
Proof.
  split.
  - unfold open at 1. destruct (is_open (eng m)) eqn:Ho; [done|].
    intros [= <-]. unfold open, close. simpl. eauto.
  - intros p. unfold close at 1.
    destruct (is_open (eng m)) eqn:Ho; simpl; [|done].
    destruct (iterator_stream (eng m)) as [id|]; [|done]. intros [= <-].
    unfold close, rewind, buildIndex, iterator, getLine, open. simpl.
    split_and!; try done.
    + by intros ->.
    + eexists. split; [done|]. simpl. split; intros ->; [done|].
      by destruct (reading_handle (eng m)).
Qed.

Lemma open_and_close_alternate_witness :
  open sample_lf opened_sample = Err (StateError AlreadyOpen) /\
  forall p, exists m'', close p opened_sample = Ok m''.
Proof.
  apply (proj1 (open_and_close_alternate sample_lf unopened_sample opened_sample)).
  vm_compute. reflexivity.
Defined.

(** ** What the calls keep *)

Lemma never_undone_refl e : never_undone e e.
Proof. by split_and!. Qed.

Lemma never_undone_trans e1 e2 e3 :
  never_undone e1 e2 -> never_undone e2 e3 -> never_undone e1 e3.
Proof.
  intros (Hf1 & Hi1 & Ha1 & Hp1) (Hf2 & Hi2 & Ha2 & Hp2).
  split_and!; [congruence|auto|auto|by etrans].
Qed.

Lemma scan_pool_prefix max ls e ml :
  index_pool e `prefix_of` index_pool (scan max ls (e, ml)).1 /\
  filename (scan max ls (e, ml)).1 = filename e /\
  is_iterator_active (scan max ls (e, ml)).1 = is_iterator_active e /\
  iterator_object (scan max ls (e, ml)).1 = iterator_object e.
Proof.
  revert e ml. induction ls as [|l ls IH]; intros e ml; simpl; [done|].
  destruct (lines e =? 0).
  - match goal with
    | |- context [scan max ls (?e', ?ml')] => exact (IH e' ml')
    end.
  - destruct ((0 <=? max)%Z && _); [done|].
    match goal with
    | |- context [scan max ls (?e', ?ml')] =>
        destruct (IH e' ml') as (Hp & Hrest)
    end.
    split; [|exact Hrest]. etrans; [|exact Hp]. simpl. by apply prefix_app_r.
Qed.

Lemma call_never_undone w m m' : call w m m' -> never_undone (eng m) (eng m').
Proof.
  destruct 1 as [m m' H|p m m' H|m m' H|max m m' H|v m|m m' H|m].
  - revert H. unfold open. destruct (is_open (eng m)); [done|].
    intros [= <-]. kept.
  - revert H. unfold close. destruct (negb (is_open (eng m))); [done|].
    destruct (iterator_stream (eng m)); [|done].
    intros [= <-]. kept.
  - revert H. unfold rewind, close, open.
    destruct (negb (is_open (eng m))); [done|].
    destruct (iterator_stream (eng m)); [|done]. simpl.
    intros [= <-]. kept.
  - revert H. unfold buildIndex. destruct (negb (is_open (eng m))); [done|].
    destruct (iterator_stream (eng m)) as [id|]; [|done].
    pose proof (scan_pool_prefix max (pending (streams m) id)
                  (set_counters 0 0 (eng m)) 0) as (Hp & Hf & Ha & _).
    destruct (scan max _ _) as [e1 ml]. simpl in *.
    unfold close, open. run_bind.
    destruct (negb (is_open e1)); [done|]. destruct (iterator_stream e1); [|done].
    simpl. intros [= <-]. unfold never_undone. simpl.
    split_and!; [done|done|congruence|done].
  - unfold getLine. destruct (negb (is_open (eng m))); [kept|].
    destruct (negb (is_indexed (eng m)) || _); [kept|].
    destruct (lookup_entry (eng m) v) as [[off len]|]; [|kept].
    unfold readAtIndex. run_bind.
    destruct (fs_read _ _ _ _ _) as [[n b']|]; simpl; [|kept].
    destruct (reading_buffer (eng m)); kept.
  - revert H. unfold iterator. destruct (negb (is_open (eng m))); [done|].
    destruct (is_iterator_active (eng m)) eqn:Ha; intros [= <-];
      [kept|]. simpl. by split_and!.
  - unfold gen_next. destruct (iterator_object (eng m)) as [g|];
      [|kept].
    destruct (g_done g); [kept|].
    destruct (g_stream g); [|kept].
    destruct (gen_advance _ _ _) as [[[res rest] i'] h']. simpl.
    by split_and!.
Qed.

Lemma calls_never_undone w m m' : calls w m m' -> never_undone (eng m) (eng m').
Proof.
  induction 1 as [m|m1 m2 m3 H12 _ IH]; [apply never_undone_refl|].
  eapply never_undone_trans; [by eapply call_never_undone|done].
Qed.

(** Only [buildIndex] sets the flag [#is_indexed]. *)
Lemma call_sets_is_indexed w m m' :
  call w m m' -> is_indexed (eng m) = false -> is_indexed (eng m') = true ->
  exists max, buildIndex w max m = Ok m'.
Proof.
  destruct 1 as [m m' H|p m m' H|m m' H|max m m' H|v m|m m' H|m]; intros Hf.
  - revert H. unfold open. destruct (is_open (eng m)); [done|].
    intros [= <-]. simpl. congruence.
  - revert H. unfold close. destruct (negb (is_open (eng m))); [done|].
    destruct (iterator_stream (eng m)); [|done]. intros [= <-]. simpl. congruence.
  - revert H. unfold rewind, close, open.
    destruct (negb (is_open (eng m))); [done|].
    destruct (iterator_stream (eng m)); [|done]. simpl.
    intros [= <-]. simpl. congruence.
  - eauto.
  - unfold getLine. rewrite Hf. simpl.
    destruct (negb (is_open (eng m))); simpl; congruence.
  - revert H. unfold iterator. destruct (negb (is_open (eng m))); [done|].
    destruct (is_iterator_active (eng m)); intros [= <-]; simpl; congruence.
  - unfold gen_next. destruct (iterator_object (eng m)) as [g|];
      [|simpl; congruence].
    destruct (g_done g); [simpl; congruence|].
    destruct (g_stream g); [|simpl; congruence].
    destruct (gen_advance _ _ _) as [[[res rest] i'] h']. simpl. congruence.
Qed.

(** X8.  The accessors [header], [lines], [columns] and [size] fail with
    the state error "file is not indexed" exactly while [isIndexed] is
    false; a new engine is not indexed, opened or not, and only a
    [buildIndex] that returns makes it so; from then on, whatever is
    called (also [close]), the engine stays indexed, the four accessors
    return, and [filename] is what it was. *)
Theorem accessors_and_isIndexed (w : World) :
  (forall m, get_isIndexed m = false ->
     get_header m = Err (StateError NotIndexed) /\
     get_lines m = Err (StateError NotIndexed) /\
     get_columns m = Err (StateError NotIndexed) /\
     get_size m = Err (StateError NotIndexed)) /\
  (forall fname opn m,
     new_CSVFileParser w fname opn = Ok m ->
     get_isIndexed m = false /\ get_filename m = fname) /\
  (forall m m', call w m m' -> get_isIndexed m = false ->
     get_isIndexed m' = true -> exists max, buildIndex w max m = Ok m') /\
  (forall m m', calls w m m' -> get_isIndexed m = true ->
     get_isIndexed m' = true /\
     get_header m' = Ok (header (eng m')) /\
     get_lines m' = Ok (lines (eng m')) /\
     get_columns m' = Ok (columns (eng m')) /\
     get_size m' = Ok (size (eng m')) /\
     get_filename m' = get_filename m).
Proof.
  split_and!.
  - intros m Hm. unfold get_header, get_lines, get_columns, get_size.
    by rewrite Hm.
  - intros fname opn m. unfold new_CSVFileParser, open.
    destruct opn; simpl; by intros [= <-].
  - apply call_sets_is_indexed.
  - intros m m' Hcalls Hm.
    apply calls_never_undone in Hcalls as (Hf & Hi & _).
    unfold get_header, get_lines, get_columns, get_size, get_isIndexed,
      get_filename in *.
    by rewrite (Hi Hm), Hf.
Qed.

Lemma accessors_and_isIndexed_witness :
  get_isIndexed opened_sample = false /\ get_filename opened_sample = "data.csv".
Proof.
  apply (proj1 (proj2 (accessors_and_isIndexed sample_lf)) "data.csv" true).
  vm_compute. reflexivity.
Defined.

(** X9.  No call undoes what is recorded: over any sequence of calls that
    return (and [next()] on the generator) the file name stays, the flags
    [#is_indexed] and [#is_iterator_active] stay set once they are, and
    the Index Table only grows at its end: the entries it has stay where
    they are.  [getLine], whether it returns or fails, leaves the line
    interfaces alone and writes nothing of the engine but the content of
    the read buffer, whose size stays. *)
Theorem nothing_recorded_is_undone (w : World) :
  (forall m m', calls w m m' -> never_undone (eng m) (eng m')) /\
  (forall v m,
     streams (getLine w v m).2 = streams m /\
     eng (getLine w v m).2 =
       set_reading_buffer (reading_buffer (eng (getLine w v m).2)) (eng m) /\
     (String.length <$> reading_buffer (eng (getLine w v m).2)) =
       (String.length <$> reading_buffer (eng m))).
Proof.
  split; [apply calls_never_undone|].
  intros v m.
  assert (eng m = set_reading_buffer (reading_buffer (eng m)) (eng m)) as Heta
    by (by destruct (eng m)).
  unfold getLine. destruct (negb (is_open (eng m))); [done|].
  destruct (negb (is_indexed (eng m)) || _); [done|].
  destruct (lookup_entry (eng m) v) as [[off len]|]; [|done].
  unfold readAtIndex. run_bind.
  destruct (fs_read _ _ _ _ _) as [[n b']|] eqn:Hread; simpl; [|done].
  destruct (reading_buffer (eng m)) as [b|] eqn:Hb; simpl.
  - split_and!; [done|done|].
    f_equal. exact (fs_read_length _ _ _ _ _ _ _ Hread).
  - split_and!; [done|by rewrite Hb|by rewrite Hb].
Qed.

Lemma nothing_recorded_is_undone_witness :
  never_undone (eng indexed_sample)
    (eng (gen_next (getLine sample_lf (VInt 2)
                      match iterator indexed_sample with
                      | Ok m => m
                      | Err _ => indexed_sample
                      end).2).2).
Proof.
  apply (proj1 (nothing_recorded_is_undone sample_lf)).
  eapply rtc_l; [apply call_iterator; vm_compute; reflexivity|].
  eapply rtc_l; [apply call_getLine|].
  eapply rtc_l; [apply call_next|]. apply rtc_refl.
Defined.

(** ** Invariants of the engine *)

Lemma scan_engine_inv max ls e ml :
  line_divisor e <> "" ->
  columns e = from_option length 0 (header e) ->
  Forall (fun entry => 0 < entry.2) (index_pool e) ->
  columns (scan max ls (e, ml)).1 =
    from_option length 0 (header (scan max ls (e, ml)).1) /\
  Forall (fun entry => 0 < entry.2) (index_pool (scan max ls (e, ml)).1).
Proof.
  revert e ml. induction ls as [|l ls IH]; intros e ml Hd Hc Hp; simpl; [done|].
  destruct (lines e =? 0).
  - match goal with
    | |- context [scan max ls (?e', ?ml')] => apply (IH e' ml'); done
    end.
  - destruct ((0 <=? max)%Z && _); [done|].
    match goal with
    | |- context [scan max ls (?e', ?ml')] => apply (IH e' ml'); try done
    end.
    simpl. apply Forall_app. split; [done|]. repeat constructor. simpl.
    pose proof (length_pos_str _ Hd). lia.
Qed.

Lemma engine_inv_session strm fd opn e :
  engine_inv e -> engine_inv (set_session strm fd opn (line_divisor e) e).
Proof. done. Qed.

Lemma open_engine_inv w m m' :
  open w m = Ok m' -> engine_inv (eng m) -> engine_inv (eng m').
Proof.
  unfold open. destruct (is_open (eng m)); [done|]. intros [= <-] Hinv.
  destruct Hinv as (Hd & Hrest). simpl. rewrite Hd. simpl.
  rewrite <- Hd. apply engine_inv_session. by split.
Qed.

Lemma close_engine_inv p m m' :
  close p m = Ok m' -> engine_inv (eng m) -> engine_inv (eng m').
Proof.
  unfold close. destruct (negb (is_open (eng m))); [done|].
  destruct (iterator_stream (eng m)); [|done]. by intros [= <-].
Qed.

Lemma buildIndex_engine_inv w max m m' :
  buildIndex w max m = Ok m' -> engine_inv (eng m) -> engine_inv (eng m').
Proof.
  unfold buildIndex. destruct (negb (is_open (eng m))); [done|].
  destruct (iterator_stream (eng m)) as [id|]; [|done].
  intros Hb (Hd & Hc & Hp & _ & _ & Hit).
  pose proof (scan_engine_inv max (pending (streams m) id)
                (set_counters 0 0 (eng m)) 0) as Hscan.
  pose proof (scan_session max (pending (streams m) id)
                (set_counters 0 0 (eng m)) 0) as (_ & _ & _ & Hdiv & _).
  pose proof (scan_pool_prefix max (pending (streams m) id)
                (set_counters 0 0 (eng m)) 0) as (_ & _ & Hact & Hobj).
  destruct Hscan as (Hc1 & Hp1); [simpl; by rewrite Hd|done..|].
  destruct (scan max _ _) as [e1 ml]. simpl in *. revert Hb.
  unfold close, open. run_bind.
  destruct (negb (is_open e1)); [done|]. destruct (iterator_stream e1); [|done].
  simpl. intros [= <-]. unfold engine_inv. simpl.
  rewrite Hdiv, Hd, Hact, Hobj. simpl. split_and!; try done; eauto.
Qed.

Lemma getLine_engine_inv w v m :
  engine_inv (eng m) -> engine_inv (eng (getLine w v m).2).
Proof.
  intros Hinv. unfold getLine. destruct (negb (is_open (eng m))); [done|].
  destruct (negb (is_indexed (eng m)) || _) eqn:Hx; [done|].
  destruct (lookup_entry (eng m) v) as [[off len]|]; [|done].
  unfold readAtIndex. run_bind.
  destruct (fs_read _ _ _ _ _) as [[n b']|]; simpl; [|done].
  destruct (reading_buffer (eng m)) eqn:Hb; [|done].
  destruct Hinv as (Hd & Hc & Hp & Hno & Hbuf & Hit).
  unfold engine_inv. simpl. split_and!; try done; eauto.
  intros Hf. rewrite Hf in Hx. done.
Qed.

Lemma reachable_engine_inv w m : reachable w m -> engine_inv (eng m).
Proof.
  induction 1 as [fname opn m Hn|m m' _ IH Ho|p m m' _ IH Hc|m m' _ IH Hr
                 |max m m' _ IH Hb|v m _ IH|m m' _ IH Hi|m _ IH].
  - assert (engine_inv (new_Engine fname)) as Hnew.
    { unfold engine_inv. simpl. by split_and!. }
    revert Hn. unfold new_CSVFileParser. destruct opn.
    + intros Ho. by eapply open_engine_inv.
    + by intros [= <-].
  - by eapply open_engine_inv.
  - by eapply close_engine_inv.
  - revert Hr. unfold rewind. destruct (negb (is_open (eng m))); [done|].
    run_bind. destruct (close true m) as [m1|] eqn:Hc; [|done].
    intros Ho. eapply open_engine_inv; [done|]. by eapply close_engine_inv.
  - by eapply buildIndex_engine_inv.
  - by apply getLine_engine_inv.
  - revert Hi. unfold iterator. destruct (negb (is_open (eng m))); [done|].
    destruct (is_iterator_active (eng m)) eqn:Ha; intros [= <-]; [done|].
    destruct IH as (Hd & Hc & Hp & Hno & Hbuf & Hit).
    unfold engine_inv. simpl. split_and!; try done; split; eauto.
  - unfold gen_next. destruct (iterator_object (eng m)) as [g|] eqn:Hg; [|done].
    destruct (g_done g); [done|]. destruct (g_stream g); [|done].
    destruct (gen_advance _ _ _) as [[[res rest] i'] h']. simpl.
    destruct IH as (Hd & Hc & Hp & Hno & Hbuf & Hit).
    unfold engine_inv. simpl. split_and!; try done;
      (split; [eauto|]; intros _; apply Hit; by rewrite Hg).
Qed.

Lemma indexed_reachable w max m : indexed w max = Ok m -> reachable w m.
Proof.
  unfold indexed.
  destruct (new_CSVFileParser w "data.csv" true) as [m0|] eqn:Hn; [|done].
  simpl. intros Hb.
  apply (reach_buildIndex w max m0 m); [|done].
  by apply (reach_new w "data.csv" true).
Qed.

(** X10.  In every state a program reaches: the line divisor is the line
    feed; [columns] is the length of the header (0 while there is none);
    no Index Table entry has length 0; until a [buildIndex] has returned
    nothing is recorded (no entry, no header, no buffer, counters at 0),
    and after it the read buffer exists; the flag [#is_iterator_active] is
    set exactly when the generator exists; and an open engine holds a
    descriptor and a line interface. *)
Theorem engine_invariants (w : World) (m : Machine) :
  reachable w m ->
  line_divisor (eng m) = String LF "" /\
  columns (eng m) = from_option length 0 (header (eng m)) /\
  Forall (fun entry => 0 < entry.2) (index_pool (eng m)) /\
  (is_indexed (eng m) = false ->
     index_pool (eng m) = [] /\ header (eng m) = None /\
     lines (eng m) = 0 /\ size (eng m) = 0 /\ reading_buffer (eng m) = None) /\
  (is_indexed (eng m) = true -> is_Some (reading_buffer (eng m))) /\
  (is_iterator_active (eng m) = true <-> is_Some (iterator_object (eng m))) /\
  (is_open (eng m) = true ->
     is_Some (reading_handle (eng m)) /\ is_Some (iterator_stream (eng m))).
Proof.
  intros Hr. pose proof (reachable_engine_inv w m Hr) as Hinv.
  pose proof (reachable_well_formed w m Hr) as Hw.
  destruct Hinv as (? & ? & ? & ? & ? & ?). split_and!; try done.
  intros Ho. unfold well_formed in Hw. rewrite Ho in Hw.
  apply andb_prop in Hw as [Hfd Hst]. apply bool_decide_eq_true in Hfd.
  split; [done|]. by destruct (iterator_stream (eng m)).
Qed.

Lemma engine_invariants_witness :
  line_divisor (eng indexed_sample) = String LF "" /\
  columns (eng indexed_sample) = from_option length 0 (header (eng indexed_sample)) /\
  Forall (fun entry => 0 < entry.2) (index_pool (eng indexed_sample)) /\
  (is_indexed (eng indexed_sample) = false ->
     index_pool (eng indexed_sample) = [] /\ header (eng indexed_sample) = None /\
     lines (eng indexed_sample) = 0 /\ size (eng indexed_sample) = 0 /\
     reading_buffer (eng indexed_sample) = None) /\
  (is_indexed (eng indexed_sample) = true ->
     is_Some (reading_buffer (eng indexed_sample))) /\
  (is_iterator_active (eng indexed_sample) = true <->
     is_Some (iterator_object (eng indexed_sample))) /\
  (is_open (eng indexed_sample) = true ->
     is_Some (reading_handle (eng indexed_sample)) /\
     is_Some (iterator_stream (eng indexed_sample))).
Proof.
  apply (engine_invariants sample_lf indexed_sample).
  apply (indexed_reachable sample_lf (-1)). vm_compute. reflexivity.
Defined.

(** ** The sequential stream after [rewind] and [buildIndex] *)

Lemma pending_after_open w m m' :
  open w m = Ok m' ->
  iterator_stream (eng m') = Some (length (streams m)) /\
  pending (streams m') (length (streams m)) = readline_lines (file_bytes w) /\
  forall id, id < length (streams m) -> streams m' !! id = streams m !! id.
Proof.
  unfold open. destruct (is_open (eng m)); [done|]. intros [= <-]. simpl.
  split; [done|]. split.
  - unfold pending. rewrite lookup_app_r by lia. by rewrite Nat.sub_diag.
  - intros id Hid. by rewrite lookup_app_l.
Qed.

Lemma buildIndex_stream w max m m' :
  buildIndex w max m = Ok m' ->
  exists id', iterator_stream (eng m') = Some id' /\
    pending (streams m') id' = readline_lines (file_bytes w).
Proof.
  unfold buildIndex. destruct (negb (is_open (eng m))); [done|].
  destruct (iterator_stream (eng m)) as [id|]; [|done].
  destruct (scan max _ _) as [e1 ml]. run_bind.
  destruct (close true _) as [m1|]; [|done]. simpl.
  destruct (open w m1) as [m2|] eqn:Ho; [|done]. simpl. intros [= <-]. simpl.
  apply pending_after_open in Ho as (Hid & Hp & _). eauto.
Qed.

(** X11.  [rewind()] on an open engine puts the sequential stream back at
    the start of the file: the engine holds a new line interface that has
    all the lines of the file to deliver, the one it held before is closed
    and delivers nothing more, and the generator made by an earlier
    [iterator()] is kept as it is, flag included. *)
Theorem rewind_restarts_the_stream (w : World) (m : Machine) :
  well_formed m = true -> is_open (eng m) = true ->
  exists m' old new,
    rewind w m = Ok m' /\
    iterator_stream (eng m) = Some old /\
    iterator_stream (eng m') = Some new /\ new <> old /\
    pending (streams m') new = readline_lines (file_bytes w) /\
    pending (streams m') old = [] /\
    iterator_object (eng m') = iterator_object (eng m) /\
    is_iterator_active (eng m') = is_iterator_active (eng m).
Proof.
  intros Hw Ho. unfold well_formed in Hw. rewrite Ho in Hw.
  apply andb_prop in Hw as [_ Hst].
  destruct (iterator_stream (eng m)) as [old|] eqn:Hid; [|done].
  apply bool_decide_eq_true in Hst.
  unfold rewind, close. rewrite Ho, Hid. simpl.
  unfold open. simpl.
  eexists _, old, (length (alter close_rl old (streams m))).
  split; [reflexivity|]. simpl. rewrite length_alter.
  split_and!; try done.
  - lia.
  - unfold pending. rewrite lookup_app_r by (rewrite length_alter; lia).
    by rewrite length_alter, Nat.sub_diag.
  - unfold pending. rewrite lookup_app_l by (rewrite length_alter; lia).
    rewrite list_lookup_alter. destruct (decide (old = old)); [|done].
    destruct (streams m !! old); done.
Qed.

Lemma rewind_restarts_the_stream_witness :
  exists m' old new,
    rewind sample_lf indexed_sample = Ok m' /\
    iterator_stream (eng indexed_sample) = Some old /\
    iterator_stream (eng m') = Some new /\ new <> old /\
    pending (streams m') new = readline_lines (file_bytes sample_lf) /\
    pending (streams m') old = [] /\
    iterator_object (eng m') = iterator_object (eng indexed_sample) /\
    is_iterator_active (eng m') = is_iterator_active (eng indexed_sample).
Proof.
  apply (rewind_restarts_the_stream sample_lf indexed_sample);
    vm_compute; reflexivity.
Defined.

(** ** [buildIndex] called again *)

(** X12.  A second [buildIndex()] does not rebuild the Index Table, it
    appends to it: on an engine that was indexed once, the same call again
    returns, and leaves an Index Table that holds every entry twice, while
    [lines], [size], the header, [columns] and the read buffer are what they
    were. *)
Theorem buildIndex_again_appends (w : World) (max : Z) (m1 : Machine) :
  indexed w max = Ok m1 ->
  exists m2,
    buildIndex w max m1 = Ok m2 /\
    index_pool (eng m2) = (index_pool (eng m1) ++ index_pool (eng m1))%list /\
    lines (eng m2) = lines (eng m1) /\ size (eng m2) = size (eng m1) /\
    header (eng m2) = header (eng m1) /\ columns (eng m2) = columns (eng m1) /\
    reading_buffer (eng m2) = reading_buffer (eng m1).
Proof.
  intros Hm1.
  destruct (indexed_shape w max)
    as (m & Hm & Ho & _ & Hw & Hlines & _ & _ & _ & Hsize).
  rewrite Hm1 in Hm. injection Hm as <-.
  destruct (indexed_contents w max) as (m & Hm & Hcont).
  rewrite Hm1 in Hm. injection Hm as <-.
  pose proof (reachable_engine_inv w m1 (indexed_reachable w max m1 Hm1))
    as (Hdiv & _).
  assert (exists id, iterator_stream (eng m1) = Some id /\
            pending (streams m1) id = readline_lines (file_bytes w))
    as (id & Hid & Hpend).
  { revert Hm1. unfold indexed.
    destruct (new_CSVFileParser w "data.csv" true) as [m0|]; [|done]. simpl.
    apply buildIndex_stream. }
  destruct (buildIndex_open w max m1 Hw Ho)
    as (id' & m2 & Hid' & Hb & Hl & Hs & Hp & Hh & Hc & _).
  rewrite Hid in Hid'. injection Hid' as <-.
  pose proof (buildIndex_buffer w max m1 m2 id Hid Hb) as Hbuf.
  rewrite Hpend in *.
  set (e0 := set_counters 0 0 (eng m1)) in *.
  pose proof (scan_rows max (readline_lines (file_bytes w)) e0 0 eq_refl eq_refl)
    as Hrows.
  pose proof (scan_lines max (readline_lines (file_bytes w)) e0 0 eq_refl)
    as Hlines2.
  pose proof (scan_size max (readline_lines (file_bytes w)) e0 0 eq_refl eq_refl)
    as Hsize2.
  change (line_divisor e0) with (line_divisor (eng m1)) in *.
  change (index_pool e0) with (index_pool (eng m1)) in *.
  rewrite Hdiv in *. change (String.length (String LF "")) with 1 in *.
  rewrite <- Hl in *. rewrite <- Hs in Hsize2.
  assert (lines (eng m2) = lines (eng m1)) as Hsame by congruence.
  exists m2. split; [done|].
  destruct (readline_lines (file_bytes w)) as [|l0 rows].
  - rewrite Hrows in *.
    destruct Hcont as (Hh1 & Hc1 & Hl1 & Hs1 & Hp1 & Hb1).
    rewrite Hp, Hh, Hc, Hbuf, Hs. subst e0. simpl. rewrite Hp1, Hb1.
    split_and!; try done; congruence.
  - destruct Hrows as (Hp' & Hm' & Hh' & Hc').
    destruct Hcont as (Hh1 & Hc1 & _ & Hp1 & Hb1).
    rewrite Hp, Hh, Hc, Hbuf, Hp', Hm', Hh', Hc', Hsame.
    rewrite Hp1 at 3. rewrite Hh1, Hc1, Hb1.
    split_and!; try done; congruence.
Qed.

Lemma buildIndex_again_appends_witness :
  exists m2,
    buildIndex sample_lf (-1) indexed_sample = Ok m2 /\
    index_pool (eng m2) =
      (index_pool (eng indexed_sample) ++ index_pool (eng indexed_sample))%list /\
    lines (eng m2) = lines (eng indexed_sample) /\
    size (eng m2) = size (eng indexed_sample) /\
    header (eng m2) = header (eng indexed_sample) /\
    columns (eng m2) = columns (eng indexed_sample) /\
    reading_buffer (eng m2) = reading_buffer (eng indexed_sample).
Proof.
  apply (buildIndex_again_appends sample_lf (-1) indexed_sample).
  vm_compute. reflexivity.
Defined.

(** ** The generator is made once *)

Lemma call_keeps_generator w m m' :
  call w m m' -> is_iterator_active (eng m) = true ->
  g_stream <$> iterator_object (eng m') = g_stream <$> iterator_object (eng m).
Proof.
  destruct 1 as [m m' H|p m m' H|m m' H|max m m' H|v m|m m' H|m]; intros Ha.
  - revert H. unfold open. destruct (is_open (eng m)); [done|].
    by intros [= <-].
  - revert H. unfold close. destruct (negb (is_open (eng m))); [done|].
    destruct (iterator_stream (eng m)); [|done]. by intros [= <-].
  - revert H. unfold rewind, close, open.
    destruct (negb (is_open (eng m))); [done|].
    destruct (iterator_stream (eng m)); [|done]. simpl. by intros [= <-].
  - revert H. unfold buildIndex. destruct (negb (is_open (eng m))); [done|].
    destruct (iterator_stream (eng m)) as [id|]; [|done].
    pose proof (scan_pool_prefix max (pending (streams m) id)
                  (set_counters 0 0 (eng m)) 0) as (_ & _ & _ & Hg).
    destruct (scan max _ _) as [e1 ml]. simpl in *.
    unfold close, open. run_bind.
    destruct (negb (is_open e1)); [done|]. destruct (iterator_stream e1); [|done].
    simpl. intros [= <-]. simpl. by rewrite Hg.
  - unfold getLine. destruct (negb (is_open (eng m))); [done|].
    destruct (negb (is_indexed (eng m)) || _); [done|].
    destruct (lookup_entry (eng m) v) as [[off len]|]; [|done].
    unfold readAtIndex. run_bind.
    destruct (fs_read _ _ _ _ _) as [[n b']|]; simpl; [|done].
    destruct (reading_buffer (eng m)); done.
  - revert H. unfold iterator. destruct (negb (is_open (eng m))); [done|].
    rewrite Ha. by intros [= <-].
  - unfold gen_next. destruct (iterator_object (eng m)) as [g|] eqn:Hobj;
      [|simpl; by rewrite Hobj].
    destruct (g_done g); [simpl; by rewrite Hobj|].
    destruct (g_stream g) eqn:Hg; [|simpl; by rewrite Hobj].
    destruct (gen_advance _ _ _) as [[[res rest] i'] h']. simpl.
    by rewrite Hg.
Qed.

(** X13.  The engine makes its generator once.  After the first
    [iterator()], whatever is called next ([open], [close], [rewind],
    [buildIndex], [getLine], [iterator], [next()] on the generator), every
    later [iterator()] on the open engine changes nothing, and the generator
    the engine holds still reads from the line interface the engine held at
    that first call. *)
Theorem generator_is_made_once (w : World) (m m1 m2 : Machine) :
  is_iterator_active (eng m) = false ->
  iterator m = Ok m1 ->
  calls w m1 m2 ->
  (is_open (eng m2) = true -> iterator m2 = Ok m2) /\
  g_stream <$> iterator_object (eng m2) = Some (iterator_stream (eng m)).
Proof.
  intros Hna Hit Hcalls.
  assert (is_iterator_active (eng m1) = true /\
          g_stream <$> iterator_object (eng m1) = Some (iterator_stream (eng m)))
    as [Ha Hg].
  { revert Hit. unfold iterator. destruct (negb (is_open (eng m))); [done|].
    rewrite Hna. by intros [= <-]. }
  clear Hit Hna. rewrite <- Hg. clear Hg.
  induction Hcalls as [m1|m1 m2 m3 H12 _ IH].
  - split; [|done]. intros Ho. unfold iterator. by rewrite Ho, Ha.
  - pose proof (call_never_undone w m1 m2 H12) as (_ & _ & Ha2 & _).
    rewrite <- (call_keeps_generator w m1 m2 H12 Ha). apply IH. by apply Ha2.
Qed.

Lemma generator_is_made_once_witness :
  (is_open (eng (getLine sample_lf (VInt 1)
                   match rewind sample_lf
                           match iterator indexed_sample with
                           | Ok m => m | Err _ => indexed_sample end with
                   | Ok m => m | Err _ => indexed_sample end).2) = true ->
   iterator (getLine sample_lf (VInt 1)
               match rewind sample_lf
                       match iterator indexed_sample with
                       | Ok m => m | Err _ => indexed_sample end with
               | Ok m => m | Err _ => indexed_sample end).2 =
   Ok (getLine sample_lf (VInt 1)
         match rewind sample_lf
                 match iterator indexed_sample with
                 | Ok m => m | Err _ => indexed_sample end with
         | Ok m => m | Err _ => indexed_sample end).2) /\
  g_stream <$> iterator_object
     (eng (getLine sample_lf (VInt 1)
             match rewind sample_lf
                     match iterator indexed_sample with
                     | Ok m => m | Err _ => indexed_sample end with
             | Ok m => m | Err _ => indexed_sample end).2) =
  Some (iterator_stream (eng indexed_sample)).
Proof.
  eapply (generator_is_made_once sample_lf indexed_sample).
  - vm_compute. reflexivity.
  - vm_compute. reflexivity.
  - eapply rtc_l; [apply call_rewind; vm_compute; reflexivity|].
    eapply rtc_l; [apply call_getLine|]. apply rtc_refl.
Defined.

(** ** The failures of [getLine] *)

Lemma for_each_error {State : Type} (body : State -> nat -> Result State)
    (P : error -> Prop) :
  (forall s i e, body s i = Err e -> P e) ->
  forall ixs s e, for_each body ixs s = Err e -> P e.
Proof.
  intros Hbody. induction ixs as [|i rest IH]; intros s e; simpl; [done|].
  destruct (body s i) as [s'|e'] eqn:Hb; simpl.
  - apply IH.
  - intros [= <-]. by eapply Hbody.
Qed.

Lemma buildLineObject_error this l i h e :
  buildLineObject this l i h = Err e -> e = TypeError.
Proof.
  destruct this as [en|]; [|rewrite buildLineObject_unbound; congruence].
  unfold buildLineObject. simpl.
  assert (forall o c e', push_unnamed o c = Err e' -> e' = TypeError) as Hpush.
  { intros o c e'. unfold push_unnamed.
    destruct (own o !! "_unnamed") as [[?|?]|]; congruence. }
  assert (forall hdr, match
      (if bool_decide (length hdr < length (splitCSVLine l))
       then o ← for_each (excess_step hdr (splitCSVLine l))
                  (seq 0 (length (splitCSVLine l)))
                  (fields (set_hasExcessCells true
                     (new_CSVObjectLine i (Some l) (splitCSVLine l))));
            Ok (set_fields o (set_hasExcessCells true
                  (new_CSVObjectLine i (Some l) (splitCSVLine l))))
       else o ← for_each (plain_step hdr (splitCSVLine l)) (seq 0 (length hdr))
                  (fields (new_CSVObjectLine i (Some l) (splitCSVLine l)));
            Ok (set_fields o (new_CSVObjectLine i (Some l) (splitCSVLine l))))
      with Ok _ => True | Err e' => e' = TypeError end) as Hloop.
  { intros hdr. case_bool_decide.
    - destruct (for_each (excess_step _ _) _ _) as [o|e'] eqn:Hf; simpl; [done|].
      revert Hf. apply (for_each_error _ (fun e0 => e0 = TypeError)).
      intros s j e2. unfold excess_step.
      destruct (hdr !! j); [case_bool_decide|]; try congruence; apply Hpush.
    - destruct (for_each (plain_step _ _) _ _) as [o|e'] eqn:Hf; simpl; [done|].
      revert Hf. apply (for_each_error _ (fun e0 => e0 = TypeError)).
      intros s j e2. by unfold plain_step. }
  destruct h as [|s|hdr]; simpl.
  - destruct (header en) as [hdr|]; [|congruence].
    specialize (Hloop hdr). destruct (if bool_decide _ then _ else _); congruence.
  - specialize (Hloop (splitCSVLine s)).
    destruct (if bool_decide _ then _ else _); congruence.
  - specialize (Hloop hdr). destruct (if bool_decide _ then _ else _); congruence.
Qed.

Lemma getLine_past_guards w v m e :
  is_open (eng m) = true -> is_indexed (eng m) = true ->
  index_pool (eng m) <> [] ->
  (getLine w v m).1 = Err e ->
  e = RangeError \/ e = TypeError \/ e = FsOutOfRange \/ e = FsEmptyBuffer \/
  e = FsBadDescriptor.
Proof.
  intros Ho Hi Hp. unfold getLine. rewrite Ho, Hi. simpl.
  destruct (index_pool (eng m)) as [|en pool] eqn:Hpool; [done|]. simpl.
  destruct (lookup_entry (eng m) v) as [[off len]|e'] eqn:Hl.
  - unfold readAtIndex.
    destruct (fs_read _ _ _ _ _) as [[n b]|e'] eqn:Hr; simpl.
    + intros He. apply buildLineObject_error in He. auto.
    + intros [= <-]. revert Hr. unfold fs_read.
      destruct (reading_handle (eng m)); [|intros [= <-]; auto 6].
      destruct (len =? 0); [done|].
      destruct (String.length _ =? 0); [intros [= <-]; auto 6|].
      destruct (String.length _ <? len); [intros [= <-]; auto 6|done].
  - simpl. intros [= <-]. revert Hl. unfold lookup_entry.
    destruct v as [z|fl| | |]; try (intros [= <-]; auto).
    + destruct (_ || _); [intros [= <-]; auto|].
      destruct (index_pool (eng m) !! Z.to_nat z) as [[off len]|];
        [|intros [= <-]; auto].
      destruct (len =? 0); [intros [= <-]; auto|done].
    + destruct (_ || _); intros [= <-]; auto.
Qed.

(** X14.  The two state errors of [getLine] come from its first two guards
    and from nowhere else: it fails with "file is not open" exactly on a
    closed engine, and with "file is not indexed" exactly on an open engine
    that is not indexed or whose Index Table is empty; it never fails with
    "already open".  In both cases the engine is left as it was. *)
Theorem getLine_state_errors (w : World) (v : jsvalue) (m : Machine) :
  ((getLine w v m).1 = Err (StateError NotOpen) <-> is_open (eng m) = false) /\
  ((getLine w v m).1 = Err (StateError NotIndexed) <->
     is_open (eng m) = true /\
     (is_indexed (eng m) = false \/ index_pool (eng m) = [])) /\
  (getLine w v m).1 <> Err (StateError AlreadyOpen) /\
  (forall f, (getLine w v m).1 = Err (StateError f) -> (getLine w v m).2 = m).
Proof.
  assert (forall f, (getLine w v m).1 = Err (StateError f) ->
            is_open (eng m) = true -> is_indexed (eng m) = true ->
            index_pool (eng m) <> [] -> False) as Hpast.
  { intros f He Ho Hi Hp.
    destruct (getLine_past_guards w v m _ Ho Hi Hp He)
      as [?|[?|[?|[?|?]]]]; done. }
  assert (is_open (eng m) = false ->
          getLine w v m = (Err (StateError NotOpen), m)) as Hclosed.
  { intros Ho. unfold getLine. by rewrite Ho. }
  assert (is_open (eng m) = true ->
          is_indexed (eng m) = false \/ index_pool (eng m) = [] ->
          getLine w v m = (Err (StateError NotIndexed), m)) as Hempty.
  { intros Ho Hor. unfold getLine. rewrite Ho. simpl.
    destruct Hor as [Hi|Hp]; [by rewrite Hi|].
    rewrite Hp. simpl. by rewrite orb_true_r. }
  destruct (is_open (eng m)) eqn:Ho;
    [destruct (is_indexed (eng m)) eqn:Hi;
       [destruct (decide (index_pool (eng m) = [])) as [Hp|Hp]|]|].
  - rewrite Hempty by auto. simpl. split_and!; try done.
    split; [auto|done].
  - split_and!.
    + split; [|done]. intros He. by destruct (Hpast _ He).
    + split; [intros He; by destruct (Hpast _ He)|].
      intros [_ [?|?]]; done.
    + intros He. by destruct (Hpast _ He).
    + intros f He. by destruct (Hpast _ He).
  - rewrite Hempty by auto. simpl. split_and!; try done.
    split; [auto|done].
  - rewrite Hclosed by done. simpl. split_and!; try done.
    split; [done|]. by intros [? _].
Qed.

Lemma getLine_state_errors_witness :
  (getLine sample_lf (VInt 1) unopened_sample).1 = Err (StateError NotOpen).
Proof.
  apply (proj1 (getLine_state_errors sample_lf (VInt 1) unopened_sample)).
  reflexivity.
Defined.

(** X15.  [buildIndex], under any cap, returns on a newly opened engine
    and sets [isIndexed]; the Index Table it leaves is empty exactly when
    the file has at most one line or the cap is 0 or 1, and then every
    [getLine], whatever its argument, fails with the state error "file is
    not indexed" and changes nothing. *)
Theorem empty_table_is_reported_not_indexed (w : World) (max : Z) :
  exists m,
    indexed w max = Ok m /\ get_isIndexed m = true /\
    (index_pool (eng m) = [] <->
       length (readline_lines (file_bytes w)) <= 1 \/ (0 <= max <= 1)%Z) /\
    (length (readline_lines (file_bytes w)) <= 1 \/ (0 <= max <= 1)%Z ->
       forall v, getLine w v m = (Err (StateError NotIndexed), m)).
Proof.
  destruct (indexed_shape w max)
    as (m & Hm & Ho & Hi & _ & Hlines & Hlen & _).
  exists m. split; [done|]. split; [done|].
  assert (index_pool (eng m) = [] <->
          length (readline_lines (file_bytes w)) <= 1 \/ (0 <= max <= 1)%Z)
    as Hiff.
  { rewrite <- length_zero_iff_nil, Hlen, Hlines. clear.
    destruct (max <? 0)%Z eqn:Hneg.
    - apply Z.ltb_lt in Hneg. lia.
    - apply Z.ltb_ge in Hneg. lia. }
  split; [done|]. intros Hc v. apply Hiff in Hc.
  unfold getLine. rewrite Ho, Hi, Hc. reflexivity.
Qed.

Lemma empty_table_is_reported_not_indexed_witness :
  exists m,
    indexed header_only_file (-1) = Ok m /\
    forall v, getLine header_only_file v m = (Err (StateError NotIndexed), m).
Proof.
  destruct (empty_table_is_reported_not_indexed header_only_file (-1))
    as (m & Hm & _ & _ & Hg).
  exists m. split; [exact Hm|]. apply Hg. left. vm_compute. lia.
Defined.

(** ** Caps that do not bind *)

Lemma scan_cap_beyond max ls : forall e ml,
  (max < 0 \/ Z.of_nat (lines e + length ls) <= max)%Z ->
  scan max ls (e, ml) = scan (-1) ls (e, ml).
Proof.
  induction ls as [|l ls IH]; intros e ml Hc; simpl; [done|].
  destruct (lines e =? 0) eqn:H0.
  - apply IH. simpl in *. lia.
  - replace ((0 <=? max)%Z && (max <=? Z.of_nat (lines e))%Z) with false.
    + apply IH. simpl in *. lia.
    + symmetry. apply andb_false_iff.
      destruct Hc as [Hc|Hc]; [left; apply Z.leb_gt; lia|].
      right. apply Z.leb_gt. simpl in Hc. lia.
Qed.

(** X16.  A cap that is negative, or at least the number of lines the
    stream of the engine has to deliver, is no cap: [buildIndex({ max })]
    then does exactly what [buildIndex()] does, returning the same engine
    or failing with the same error. *)
Theorem cap_beyond_the_lines_is_no_cap (w : World) (max : Z) (m : Machine) :
  (max < 0 \/
   Z.of_nat (from_option (fun id => length (pending (streams m) id)) 0%nat
               (iterator_stream (eng m))) <= max)%Z ->
  buildIndex w max m = buildIndex w (-1) m.
Proof.
  intros Hc. unfold buildIndex. destruct (negb (is_open (eng m))); [done|].
  destruct (iterator_stream (eng m)) as [id|]; [|done]. simpl in Hc.
  by rewrite (scan_cap_beyond max (pending (streams m) id)
                (set_counters 0 0 (eng m)) 0 Hc).
Qed.

Lemma cap_beyond_the_lines_is_no_cap_witness :
  buildIndex sample_lf 4 opened_sample = buildIndex sample_lf (-1) opened_sample.
Proof.
  apply (cap_beyond_the_lines_is_no_cap sample_lf 4 opened_sample).
  right. vm_compute. discriminate.
Defined.

(** X17.  On a file of single-byte (ASCII) text, whatever the cap, also
    0, after [buildIndex] on a newly opened engine the accessor [header]
    returns the cells of the first line of the file and [columns] their
    number; on a file without any line they return [null] and 0.  The read
    buffer is as long as the longest data row among those indexed. *)
Theorem header_is_read_under_any_cap (w : World) (max : Z) :
  ascii_text (file_bytes w) = true ->
  exists m,
    indexed w max = Ok m /\
    get_header m = Ok (splitCSVLine <$> head (readline_lines (file_bytes w))) /\
    get_columns m =
      Ok (from_option (fun l0 => length (splitCSVLine l0)) 0
            (head (readline_lines (file_bytes w)))) /\
    (String.length <$> reading_buffer (eng m)) =
      Some (longest (take (lines (eng m) - 1)
                       (tail (readline_lines (file_bytes w))))).
Proof.
  intros _.
  destruct (indexed_shape w max) as (m & Hm & _ & Hi & _).
  destruct (indexed_contents w max) as (m' & Hm' & Hcont).
  rewrite Hm in Hm'. injection Hm' as <-.
  exists m. split; [done|]. unfold get_header, get_columns, get_isIndexed.
  rewrite Hi. simpl.
  destruct (readline_lines (file_bytes w)) as [|l0 rows]; simpl.
  - destruct Hcont as (Hh & Hc & _ & _ & _ & Hb). rewrite Hh, Hc, Hb.
    by rewrite take_nil.
  - destruct Hcont as (Hh & Hc & _ & _ & Hb). rewrite Hh, Hc, Hb. simpl.
    by rewrite length_Buffer_alloc.
Qed.

Lemma header_is_read_under_any_cap_witness :
  exists m,
    indexed sample_lf 0 = Ok m /\
    get_header m =
      Ok (splitCSVLine <$> head (readline_lines (file_bytes sample_lf))) /\
    get_columns m =
      Ok (from_option (fun l0 => length (splitCSVLine l0)) 0
            (head (readline_lines (file_bytes sample_lf)))) /\
    (String.length <$> reading_buffer (eng m)) =
      Some (longest (take (lines (eng m) - 1)
                       (tail (readline_lines (file_bytes sample_lf))))).
Proof.
  apply (header_is_read_under_any_cap sample_lf 0). vm_compute. reflexivity.
Defined.
